(** * smrepl: the wallet backend and the REPL command layer

    A shallow embedding of
    - [client/backend.go]      (package [client]: [WalletBackend], [Transfer]),
    - [repl/account_commands.go] and the REPL core (package [repl]:
      [createAccount], [chooseAccount], [getCurrent], [initializeCommands],
      [executor], the wallet handlers, [coinAmount], [sign], [textsign],
      [commandLineParams]),
    together with the properties the specification states about them and
    further properties of the code.

    Conventions.  A Go [uint64] is a [Z] in [[0, 2^64)]; a Go [[]byte] or
    [[n]byte] is a [list Z] of values in [[0, 256)]; a Go [string] is a
    [string] (a sequence of bytes, as in Go); a Go [(T, error)] result is a
    [result T]; an [error] result alone is an [option error]. *)

From Stdlib Require Import ZArith List String Ascii Bool Lia.
From Stdlib Require DecimalString DecimalN DecimalPos DecimalFacts.
Import ListNotations.

Open Scope Z_scope.

(** ** Values shared by the packages *)

Definition bytes := list Z.

Definition is_byte (b : Z) : Prop := 0 <= b < 256.

Definition uint64_max : Z := 2 ^ 64 - 1.

Definition is_uint64 (v : Z) : Prop := 0 <= v <= uint64_max.

(** Go's [error]: an opaque value that carries a message. *)
Inductive error : Type :=
| Error (msg : string).

Inductive result (A : Type) : Type :=
| Ok (a : A)
| Err (e : error).

Arguments Ok {A} a.
Arguments Err {A} e.

(** Go's builtin [copy(dst, src)]: overwrites the first
    [min(len(dst), len(src))] elements of [dst]. *)
Definition copy (dst src : bytes) : bytes :=
  let n := Nat.min (List.length dst) (List.length src) in
  firstn n src ++ skipn n dst.

(** ** go-xdr (xdr2): the part of the encoder that the wallet exercises

    [xdr.Marshal] walks a Go value by reflection.  [value] is what
    reflection sees; [encode] follows the encoder's case analysis on the
    kind of the value (RFC 4506 representations). *)
Module xdr.

#[warnings="-register-all"] Inductive value : Type :=
| Uint64 (v : Z)                    (* uint64: unsigned hyper *)
| ByteArray (bs : bytes)            (* [n]byte: fixed-length opaque *)
| Struct (fields : list value)      (* fields in declaration order *)
| Ptr (target : option value)       (* nil or &v *)
| Interface (dyn : option value)    (* nil or the dynamic value *)
| Unsupported (kind : string).      (* chan, func, complex128, ... *)

Definition ErrNilInterface : error := Error "can't marshal nil interface".
Definition ErrNilPointer : error := Error "can't marshal nil pointer".
Definition ErrUnsupportedType (kind : string) : error :=
  Error ("unsupported Go type '" ++ kind ++ "'")%string.

(** [EncodeUhyper]: eight bytes, most significant first. *)
Definition EncodeUhyper (v : Z) : bytes :=
  [ Z.land (Z.shiftr v 56) 255; Z.land (Z.shiftr v 48) 255;
    Z.land (Z.shiftr v 40) 255; Z.land (Z.shiftr v 32) 255;
    Z.land (Z.shiftr v 24) 255; Z.land (Z.shiftr v 16) 255;
    Z.land (Z.shiftr v 8) 255;  Z.land v 255 ].

(** [EncodeFixedOpaque]: the bytes, then zero bytes up to a multiple
    of four. *)
Definition padding (l : nat) : nat := ((4 - (l mod 4)) mod 4)%nat.

Definition EncodeFixedOpaque (bs : bytes) : bytes :=
  bs ++ repeat 0 (padding (List.length bs)).

Fixpoint encode (v : value) : result bytes :=
  match v with
  | Uint64 n => Ok (EncodeUhyper n)
  | ByteArray bs => Ok (EncodeFixedOpaque bs)
  | Struct fields =>
      (fix encodeStruct (fs : list value) : result bytes :=
         match fs with
         | [] => Ok []
         | f :: fs' =>
             match encode f with
             | Err e => Err e
             | Ok b =>
                 match encodeStruct fs' with
                 | Err e => Err e
                 | Ok bs => Ok (b ++ bs)
                 end
             end
         end) fields
  | Ptr None => Err ErrNilPointer
  | Ptr (Some t) => encode t
  | Interface None => Err ErrNilInterface
  | Interface (Some d) => encode d
  | Unsupported kind => Err (ErrUnsupportedType kind)
  end.

(** The loop of [encodeStruct], named. *)
Fixpoint encodeStruct (fs : list value) : result bytes :=
  match fs with
  | [] => Ok []
  | f :: fs' =>
      match encode f with
      | Err e => Err e
      | Ok b =>
          match encodeStruct fs' with
          | Err e => Err e
          | Ok bs => Ok (b ++ bs)
          end
      end
  end.

(** [xdr.Marshal(&w, v)] into an empty [bytes.Buffer] [w], followed by
    [w.Bytes()].  Writes to a [bytes.Buffer] do not fail. *)
Definition Marshal (v : value) : result bytes := encode v.

End xdr.

(** ** Types of the packages [gosmtypes], [ed25519], [pb] and [common] *)

(** [gosmtypes.Address] is [[AddressLength]byte]. *)
Definition AddressLength : nat := 20.
Definition Address := bytes.

Definition PrivateKey := bytes.
Definition SignatureSize : nat := 64.

(** [pb.TransactionState]: the node's answer to a submission. *)
Inductive TransactionState : Type :=
| TxState (id : bytes) (state : Z).

(** Modelled from the spec: the declaration of
    [common.InnerSerializableSignedTransaction] (package [common] is not
    among the files embedded here).  The fields are declared in the order
    the specification gives for the encoding: nonce, amount, recipient
    address, gas limit, gas price; the integers are [uint64], the
    recipient a [gosmtypes.Address]. *)
Record InnerSerializableSignedTransaction : Type := {
  AccountNonce : Z;
  Amount : Z;
  Recipient : Address;
  GasLimit : Z;
  Price : Z
}.

(** Modelled from the spec: the declaration of
    [common.SerializableSignedTransaction] (package [common]): the
    unsigned fields (an embedded struct, as [Transfer]'s field accesses
    show) followed by the 64-byte signature. *)
Record SerializableSignedTransaction : Type := {
  Inner : InnerSerializableSignedTransaction;
  Signature : bytes
}.

(** The zero value [common.SerializableSignedTransaction{}]. *)
Definition zero_Address : Address := repeat 0 AddressLength.

Definition zero_SerializableSignedTransaction : SerializableSignedTransaction :=
  {| Inner := {| AccountNonce := 0; Amount := 0; Recipient := zero_Address;
                 GasLimit := 0; Price := 0 |};
     Signature := repeat 0 SignatureSize |}.

(** What reflection sees of the two structs. *)
Definition reflect_Inner (t : InnerSerializableSignedTransaction) : xdr.value :=
  xdr.Struct [ xdr.Uint64 (AccountNonce t); xdr.Uint64 (Amount t);
               xdr.ByteArray (Recipient t);
               xdr.Uint64 (GasLimit t); xdr.Uint64 (Price t) ].

Definition reflect_Signed (t : SerializableSignedTransaction) : xdr.value :=
  xdr.Struct [ reflect_Inner (Inner t); xdr.ByteArray (Signature t) ].

(** Modelled from the spec: the declaration of [common.LocalAccount]
    (package [common]); the code reads [Name], [PubKey] and [PrivKey]. *)
Record LocalAccount : Type := {
  Name : string;
  PubKey : bytes;
  PrivKey : bytes
}.

(** Modelled from the spec: [common.Store], an ordered sequence of
    accounts; [common.Store{}] is the empty one. *)
Definition Store := list LocalAccount.
Definition empty_Store : Store := [].

(** ** Package [client]: the wallet backend ([client/backend.go]) *)
Module client.

Definition accountsFileName : string := "accounts.json".

(** A line written by [log.Error]: the format and its arguments. *)
Inductive log_entry : Type :=
| LogError (format : string) (path : string) (err : error).

Section Backend.

(** The gRPC client that [WalletBackend] embeds is defined in another
    file of the package: its state and its methods are parameters. *)
Variable GRPCClient : Type.
Variable NewGRPCClient : string -> Z -> GRPCClient.
Variable Connect : GRPCClient -> option error * GRPCClient.
Variable SubmitCoinTransaction :
  GRPCClient -> bytes -> result TransactionState * GRPCClient.

(** [common.LoadAccounts], [common.StoreAccounts] and [path.Join]. *)
Variable Disk : Type.
Variable LoadAccounts : string -> Disk -> result Store.
Variable common_StoreAccounts : string -> Store -> Disk -> option error * Disk.
Variable path_Join : string -> string -> string.

(** [xdr.Marshal] into a fresh buffer, and [ed25519.Sign2]. *)
Variable Marshal : xdr.value -> result bytes.
Variable Sign2 : PrivateKey -> bytes -> bytes.

Record WalletBackend : Type := {
  grpc : GRPCClient;                      (* *GRPCClient, embedded *)
  store : Store;                          (* common.Store, embedded *)
  accountsFilePath : string;
  currentAccount : option LocalAccount    (* nil when none *)
}.

Definition NewWalletBackend (dataDir grpcServer : string) (grpcPort : Z)
           (disk : Disk)
  : result WalletBackend * list log_entry :=
  let accountsFilePath := path_Join dataDir accountsFileName in
  let '(acc, logged) :=
    match LoadAccounts accountsFilePath disk with
    | Err err =>
        (empty_Store,
         [LogError "cannot load account from file %s: %s"
                   accountsFilePath err])
    | Ok acc => (acc, [])
    end in
  let grpcClient := NewGRPCClient grpcServer grpcPort in
  let '(err, grpcClient) := Connect grpcClient in
  match err with
  | Some err => (Err err, logged)
  | None =>
      (Ok {| grpc := grpcClient; store := acc;
             accountsFilePath := accountsFilePath;
             currentAccount := None |}, logged)
  end.

Definition CurrentAccount (w : WalletBackend) : option LocalAccount :=
  currentAccount w.

Definition SetCurrentAccount (w : WalletBackend) (a : option LocalAccount)
  : WalletBackend :=
  {| grpc := grpc w; store := store w;
     accountsFilePath := accountsFilePath w;
     currentAccount := a |}.

Definition InterfaceToBytes (i : xdr.value) : result bytes :=
  match Marshal (xdr.Ptr (Some (xdr.Interface (Some i)))) with
  | Err err => Err err
  | Ok w => Ok w
  end.

Definition StoreAccounts (w : WalletBackend) (disk : Disk)
  : option error * Disk :=
  common_StoreAccounts (accountsFilePath w) (store w) disk.

(** [buf, _ := InterfaceToBytes(...)]: the error is dropped and [buf]
    is whatever came back with it ([nil] on failure). *)
Definition drop_error (r : result bytes) : bytes :=
  match r with
  | Ok buf => buf
  | Err _ => []
  end.

Definition Transfer (w : WalletBackend) (recipient : Address)
           (nonce amount gasPrice gasLimit : Z) (key : PrivateKey)
  : result TransactionState * WalletBackend :=
  let tx := zero_SerializableSignedTransaction in
  let inner := {| AccountNonce := nonce; Amount := amount;
                  Recipient := recipient; GasLimit := gasLimit;
                  Price := gasPrice |} in
  let tx := {| Inner := inner; Signature := Signature tx |} in
  let buf := drop_error (InterfaceToBytes (xdr.Ptr (Some (reflect_Inner (Inner tx))))) in
  let tx := {| Inner := Inner tx;
               Signature := copy (Signature tx) (Sign2 key buf) |} in
  match InterfaceToBytes (xdr.Ptr (Some (reflect_Signed tx))) with
  | Err err => (Err err, w)
  | Ok b =>
      let '(state, g) := SubmitCoinTransaction (grpc w) b in
      (state, {| grpc := g; store := store w;
                 accountsFilePath := accountsFilePath w;
                 currentAccount := currentAccount w |})
  end.

End Backend.

End client.

(** ** Package [repl]: the command layer *)
Module repl.

Local Open Scope string_scope.

Definition prefix : string := "$ ".
Definition printPrefix : string := ">".

(** Go's [int] (64 bits): subtraction wraps. *)
Definition wrap_int (x : Z) : Z := (x + 2 ^ 63) mod 2 ^ 64 - 2 ^ 63.

(** The method values [r.openWallet], [r.createWallet], ... that
    [initializeCommands] stores in the [fn] field of a command. *)
Inductive method : Type :=
| r_openWallet | r_createWallet | r_walletInfo | r_closeWallet
| r_createAccount | r_chooseAccount | r_printAccountInfo
| r_printLocalAccountRewards | r_sign | r_signText
| r_printAccountTransactions | r_submitCoinTransaction
| r_nodeInfo | r_printMeshInfo | r_printTransactionStatus
| r_printAccountState | r_printAccountRewards
| r_printAccountRewardsStream
| r_printSmesherRewards | r_printGlobalState
| r_printSmesherId | r_printRewardsAddress | r_setRewardsAddress
| r_printCurrentSmesherRewards | r_stopSmeshing | r_printSmeshingStatus
| r_printPostStatus | r_printPostProviders | r_startSmeshing
| r_printAllAccounts | r_quit.

Record command : Type := {
  text : string;
  description : string;
  fn : method
}.

(** The calls the command layer makes through the [Client] interface. *)
Inductive call : Type :=
| call_WalletInfo | call_OpenWallet | call_NewWallet | call_CloseWallet
| call_CreateAccount (alias : string)
| call_CurrentAccount
| call_SetCurrentAccount (accountNumber : Z)
| call_ListAccounts
| call_StoreAccounts.

(** What a run leaves behind, in order: output, log lines, the prompts
    put to the operator and the calls made on the client. *)
Inductive event : Type :=
| Println (args : list string)
| Printf (format : string) (args : list string)
| LogError (format : string) (err : error)
| Prompt_inputNotBlank (msg : string)
| Prompt_multipleChoice (choices : list string)
| Call (c : call).

(** The [Client] interface, over the state [C] of whatever implements
    it.  Only the methods that the functions below call are listed. *)
Class Client (C : Type) : Type := {
  WalletInfo : C -> C;
  OpenWallet : C -> bool * C;
  NewWallet : C -> bool * C;
  CloseWallet : C -> C;
  CreateAccount : string -> C -> result LocalAccount * C;
  CurrentAccount : C -> result LocalAccount * C;
  SetCurrentAccount : Z -> C -> option error * C;
  ListAccounts : C -> result (list string) * C;
  StoreAccounts : C -> option error * C
}.

Section Repl.

Context {C : Type} `{Client C}.

(** The terminal, and the helpers that read from it; the helpers, the
    prompt texts and the rendering of an account's address are defined
    in other files and are parameters. *)
Variable T : Type.
Variable read_inputNotBlank : string -> T -> string * T.
Variable read_multipleChoice : list string -> T -> Z * T.
Variable createAccountMsg : string.
Variable Address_String : LocalAccount -> string.

Record repl : Type := {
  commands : list command;
  client : C;
  clientOpen : bool;
  input : string
}.

Record world : Type := {
  this : repl;
  terminal : T;
  trace : list event
}.

Inductive outcome (A : Type) : Type :=
| Returned (a : A)
| Panicked (msg : string).

Definition M (A : Type) : Type := world -> outcome A * world.

Definition ret {A : Type} (a : A) : M A := fun w => (Returned A a, w).

Definition bind {A B : Type} (m : M A) (f : A -> M B) : M B :=
  fun w =>
    match m w with
    | (Returned _ a, w') => f a w'
    | (Panicked _ msg, w') => (Panicked B msg, w')
    end.

Definition panic {A : Type} (msg : string) : M A :=
  fun w => (Panicked A msg, w).

Definition emit (e : event) : M unit :=
  fun w => (Returned unit tt,
            {| this := this w; terminal := terminal w;
               trace := (trace w ++ [e])%list |}).

Definition with_client {A : Type} (c : call) (f : C -> A * C) : M A :=
  fun w =>
    let '(a, cl) := f (client (this w)) in
    (Returned A a,
     {| this := {| commands := commands (this w); client := cl;
                   clientOpen := clientOpen (this w);
                   input := input (this w) |};
        terminal := terminal w;
        trace := (trace w ++ [Call c])%list |}).

Definition update (f : repl -> repl) : M unit :=
  fun w => (Returned unit tt,
            {| this := f (this w); terminal := terminal w;
               trace := trace w |}).

Definition inputNotBlank (msg : string) : M string :=
  fun w =>
    let '(s, t) := read_inputNotBlank msg (terminal w) in
    (Returned string s,
     {| this := this w; terminal := t;
        trace := (trace w ++ [Prompt_inputNotBlank msg])%list |}).

Definition multipleChoice (choices : list string) : M Z :=
  fun w =>
    let '(n, t) := read_multipleChoice choices (terminal w) in
    (Returned Z n,
     {| this := this w; terminal := t;
        trace := (trace w ++ [Prompt_multipleChoice choices])%list |}).

Local Notation "x <- m ;; k" := (bind m (fun x => k))
  (at level 61, m at next level, right associativity).
Local Notation "m ;;; k" := (bind m (fun _ => k))
  (at level 61, right associativity).

Definition set_commands (cs : list command) (r : repl) : repl :=
  {| commands := cs; client := client r;
     clientOpen := clientOpen r; input := input r |}.

Definition set_clientOpen (b : bool) (r : repl) : repl :=
  {| commands := commands r; client := client r;
     clientOpen := b; input := input r |}.

Definition set_input (s : string) (r : repl) : repl :=
  {| commands := commands r; client := client r;
     clientOpen := clientOpen r; input := s |}.

Definition cmd (t d : string) (f : method) : command :=
  {| text := t; description := d; fn := f |}.

Definition accountCommands (open : bool) : list command :=
  if open then
    [ cmd "wallet-info" "Display wallet info" r_walletInfo;
      cmd "wallet-close" "Close current wallet" r_closeWallet;
      cmd "account-new" "Create a new account (key pair) and set as current" r_createAccount;
      cmd "account-set" "Set one of the previously created accounts as current" r_chooseAccount;
      cmd "account-info" "Display the current account info" r_printAccountInfo;
      cmd "account-rewards" "Display all rewards awarded to the current account" r_printLocalAccountRewards;
      cmd "account-sign" "Sign a hex message with the current account private key" r_sign;
      cmd "account-text-sign" "Sign a text message with the current account private key" r_signText;
      cmd "account-txs" "Display all outgoing and incoming transactions for the current account that are on the mesh" r_printAccountTransactions;
      cmd "account-send-coin" "Transfer coins from current account to another account" r_submitCoinTransaction ]
  else
    [ cmd "wallet-open" "Open a wallet" r_openWallet;
      cmd "wallet-create" "Create a wallet" r_createWallet ].

Definition otherCommands : list command :=
  [ cmd "status-node" "Display node status" r_nodeInfo;
    cmd "status-net" "Display network information" r_printMeshInfo;
    cmd "status-tx" "Display a transaction status" r_printTransactionStatus;
    cmd "state-account" "Display an account balance and nonce" r_printAccountState;
    cmd "state-rewards" "Display an account rewards " r_printAccountRewards;
    cmd "state-stream-rewards" "Stream new rewards for an account" r_printAccountRewardsStream;
    cmd "state-stream-account" "Stream account updates" r_printAccountRewardsStream;
    cmd "state-smesher-rewards" "Display smesher rewards" r_printSmesherRewards;
    cmd "state-global" "Display the most recent network global state" r_printGlobalState;
    cmd "smesher-id" "Display current smesher id" r_printSmesherId;
    cmd "smesher-rewards-address" "Display current smesher rewards address" r_printRewardsAddress;
    cmd "smesher-set-rewards-address" "Set the smesher's rewards address" r_setRewardsAddress;
    cmd "smesher-rewards" "Display current smesher rewards" r_printCurrentSmesherRewards;
    cmd "smesher-stop" "Stop smeshing" r_stopSmeshing;
    cmd "smesher-status" "Display smesher status" r_printSmeshingStatus;
    cmd "smesher-post-status" "Display the proof of space status" r_printPostStatus;
    cmd "smesher-post-providers" "Display the available proof of space providers" r_printPostProviders;
    cmd "smesher-start" "Start smeshing using the current wallet account as the rewards account" r_startSmeshing;
    cmd "dbg-all-accounts" "Display all global state accounts" r_printAllAccounts;
    cmd "quit" "Quit this app" r_quit ].

Definition initializeCommands : M unit :=
  update (fun r =>
            set_commands (accountCommands (clientOpen r) ++ otherCommands)%list r).

Definition walletInfo : M unit :=
  with_client call_WalletInfo (fun c => (tt, WalletInfo c)).

Definition openWallet : M unit :=
  opened <- with_client call_OpenWallet OpenWallet ;;
  update (set_clientOpen opened) ;;;
  if negb opened then emit (Println ["Wallet NOT opened"])
  else walletInfo ;;; initializeCommands.

Definition createWallet : M unit :=
  opened <- with_client call_NewWallet NewWallet ;;
  update (set_clientOpen opened) ;;;
  if negb opened then emit (Println ["Wallet NOT created"])
  else walletInfo ;;; initializeCommands.

Definition closeWallet : M unit :=
  with_client call_CloseWallet (fun c => (tt, CloseWallet c)) ;;;
  update (set_clientOpen false) ;;;
  initializeCommands.

Definition createAccount : M unit :=
  emit (Println [printPrefix; "Create a new account"]) ;;;
  alias <- inputNotBlank createAccountMsg ;;
  created <- with_client (call_CreateAccount alias) (CreateAccount alias) ;;
  match created with
  | Err err => emit (LogError "Failed to create a new account: %v" err)
  | Ok ac =>
      stored <- with_client call_StoreAccounts StoreAccounts ;;
      match stored with
      | Some err => emit (LogError "Failed to save the new account: %v" err)
      | None =>
          emit (Printf "%s Created account: %s, address: %s \n"
                       [printPrefix; Name ac; Address_String ac])
      end
  end.

Definition chooseAccount : M unit :=
  listed <- with_client call_ListAccounts ListAccounts ;;
  match listed with
  | Err err => emit (LogError "failure to choose account" err)
  | Ok accs =>
      if (List.length accs =? 0)%nat then createAccount
      else
        emit (Println [printPrefix; "Choose an account to load:"]) ;;;
        accNumber <- multipleChoice accs ;;
        if (accNumber =? 0)%Z then emit (Println ["none selected"])
        else
          let accNumber := wrap_int (accNumber - 1) in
          set <- with_client (call_SetCurrentAccount accNumber)
                             (SetCurrentAccount accNumber) ;;
          match set with
          | Some err => emit (LogError "failure to set current account" err)
          | None =>
              current <- with_client call_CurrentAccount CurrentAccount ;;
              match current with
              | Err _ => panic "wtf"
              | Ok account =>
                  emit (Printf "%s Loaded account alias: `%s`, address: %s \n"
                               [printPrefix; Name account;
                                Address_String account])
              end
          end
  end.

Definition getCurrent : M (result LocalAccount) :=
  current <- with_client call_CurrentAccount CurrentAccount ;;
  match current with
  | Err _ =>
      chooseAccount ;;;
      with_client call_CurrentAccount CurrentAccount
  | Ok _ => ret current
  end.

(** The bodies of the remaining methods make no difference to the
    dispatch; they are a parameter. *)
Variable other_method : method -> M unit.

Definition invoke (f : method) : M unit :=
  match f with
  | r_openWallet => openWallet
  | r_createWallet => createWallet
  | r_walletInfo => walletInfo
  | r_closeWallet => closeWallet
  | r_createAccount => createAccount
  | r_chooseAccount => chooseAccount
  | _ => other_method f
  end.

(** [len(text) >= len(c.text) && text[:len(c.text)] == c.text] *)
Definition matches (txt : string) (c : command) : bool :=
  (String.length (text c) <=? String.length txt)%nat
  && String.eqb (substring 0 (String.length (text c)) txt) (text c).

(** The [for _, c := range r.commands] loop of [executor]. *)
Fixpoint executor_range (cs : list command) (txt : string) : M unit :=
  match cs with
  | [] => emit (Println [printPrefix; "invalid command."])
  | c :: rest =>
      if matches txt c then
        update (set_input txt) ;;; invoke (fn c)
      else executor_range rest txt
  end.

Definition executor (txt : string) : M unit :=
  fun w => executor_range (commands (this w)) txt w.

End Repl.

End repl.

Arguments repl.this {C T} w.
Arguments repl.terminal {C T} w.
Arguments repl.trace {C T} w.
Arguments repl.Build_world {C T} this terminal trace.
Arguments repl.Returned {A} a.
Arguments repl.Panicked {A} msg.

(** ** The account file and the session behind the [Client] interface

    [common.LoadAccounts] and the implementation of [repl.Client] belong
    to packages that are not embedded above; they follow the
    specification. *)
Module store_file.

Local Open Scope string_scope.

(** What a file holds: an encoded store, or bytes that do not parse. *)
Inductive content : Type :=
| Accounts (s : Store)
| Garbage (raw : string).

(** A disk: the files present, by path. *)
Definition disk := list (string * content).

Fixpoint read (path : string) (d : disk) : option content :=
  match d with
  | [] => None
  | (p, c) :: d' => if String.eqb p path then Some c else read path d'
  end.

Definition CorruptStoreError : error := Error "CorruptStoreError".

(** Modelled from the spec: [common.LoadAccounts], the [load] of the
    specification's AccountStore: an absent file gives a fresh empty
    store, a malformed file fails with [CorruptStoreError]. *)
Definition LoadAccounts (path : string) (d : disk) : result Store :=
  match read path d with
  | None => Ok empty_Store
  | Some (Accounts s) => Ok s
  | Some (Garbage _) => Err CorruptStoreError
  end.

End store_file.

Module session.

Local Open Scope string_scope.

Definition DuplicateAliasError : error := Error "DuplicateAliasError".
Definition NoCurrentAccountError : error := Error "NoCurrentAccountError".
Definition IndexOutOfRangeError : error := Error "IndexOutOfRangeError".
Definition IOError : error := Error "IOError".

Section Session.

(** The secure random source: the key pair of the [n]-th draw, as
    (public key, private key). *)
Variable keygen : nat -> bytes * bytes.

(** Modelled from the spec: the state behind the interface exposed to
    the command layer: the AccountStore (accounts in creation order),
    the SessionState (at most one current account, held as an index
    into the store) and the persisted file. *)
Record state : Type := {
  accounts : Store;
  current : option nat;
  draws : nat;
  saved : option Store;
  writable : bool
}.

Definition has_alias (alias : string) (s : Store) : bool :=
  existsb (fun a => String.eqb (Name a) alias) s.

(** Modelled from the spec: [createAccount] of the AccountStore
    (a duplicate alias fails; otherwise a fresh key pair is appended;
    nothing is persisted) with the SessionState transition: the first
    account created becomes current, later creations leave the
    selection as it is. *)
Definition createAccount (alias : string) (st : state)
  : result LocalAccount * state :=
  if has_alias alias (accounts st) then (Err DuplicateAliasError, st)
  else
    let '(pub, priv) := keygen (draws st) in
    let ac := {| Name := alias; PubKey := pub; PrivKey := priv |} in
    (Ok ac,
     {| accounts := (accounts st ++ [ac])%list;
        current := match accounts st with
                   | [] => Some 0%nat
                   | _ :: _ => current st
                   end;
        draws := S (draws st);
        saved := saved st;
        writable := writable st |}).

(** Modelled from the spec: [currentAccount]: the selected account,
    or [NoCurrentAccountError]. *)
Definition currentAccount (st : state) : result LocalAccount * state :=
  match current st with
  | None => (Err NoCurrentAccountError, st)
  | Some i =>
      match nth_error (accounts st) i with
      | Some ac => (Ok ac, st)
      | None => (Err NoCurrentAccountError, st)
      end
  end.

(** Modelled from the spec: [selectAccount] by position (the command
    layer passes the position counted from zero); out of range fails
    and leaves the state unchanged. *)
Definition selectAccount (n : Z) (st : state) : option error * state :=
  if ((0 <=? n) && (n <? Z.of_nat (List.length (accounts st))))%Z then
    (None,
     {| accounts := accounts st; current := Some (Z.to_nat n);
        draws := draws st; saved := saved st;
        writable := writable st |})
  else (Some IndexOutOfRangeError, st).

(** Modelled from the spec: [listAccounts]: the aliases in creation
    order. *)
Definition listAccounts (st : state) : result (list string) * state :=
  (Ok (map Name (accounts st)), st).

(** Modelled from the spec: [persistAccounts]: writes the whole
    sequence to the file, or fails with [IOError]. *)
Definition persistAccounts (st : state) : option error * state :=
  if writable st then
    (None,
     {| accounts := accounts st; current := current st;
        draws := draws st; saved := Some (accounts st);
        writable := writable st |})
  else (Some IOError, st).

(** Modelled from the spec: the specification has one wallet, always
    open; the wallet methods of the interface do nothing. *)
#[local] Instance session_Client : repl.Client state := {|
  repl.WalletInfo := fun st => st;
  repl.OpenWallet := fun st => (true, st);
  repl.NewWallet := fun st => (true, st);
  repl.CloseWallet := fun st => st;
  repl.CreateAccount := createAccount;
  repl.CurrentAccount := currentAccount;
  repl.SetCurrentAccount := selectAccount;
  repl.ListAccounts := listAccounts;
  repl.StoreAccounts := persistAccounts
|}.

(** The states of the SessionState machine. *)
Definition NoAccounts (st : state) : Prop := accounts st = [].

Definition AccountSelected (ac : LocalAccount) (st : state) : Prop :=
  exists i, current st = Some i /\ nth_error (accounts st) i = Some ac.

End Session.

End session.

(** * More of the command layer *)

(** ** [coinAmount] ([repl/account_commands.go]) *)
Module account_commands.
Local Open Scope string_scope.

Definition onesmh : Z := 1000000000000.

Fixpoint zeros (k : nat) : string :=
  match k with
  | O => EmptyString
  | S k' => String "0" (zeros k')
  end.

(** [%d] of a [uint64]. *)
Definition format_d (v : Z) : string :=
  DecimalString.NilZero.string_of_uint (N.to_uint (Z.to_N v)).

(** [%012d] of a [uint64]: zeros on the left up to twelve characters. *)
Definition format_012d (v : Z) : string :=
  let s := format_d v in
  zeros (12 - String.length s) ++ s.

Definition coinAmount (val : Z) : string :=
  if (1000000000000 <=? val)%Z then
    format_d (val / onesmh) ++ "." ++ format_012d (val mod onesmh) ++ " SMH"
  else if (10000000000 <=? val)%Z then
    "0." ++ format_012d (val mod onesmh) ++ " SMH"
  else format_d val ++ " Smidge".
End account_commands.

(** ** [encoding/hex] and the conversion [[]byte(s)] *)
Module hex.

Local Open Scope string_scope.

Definition ErrLength : error := Error "encoding/hex: odd length hex string".

(** [InvalidByteError]; the message here carries the byte itself where Go
    prints its code point. *)
Definition InvalidByteError (c : ascii) : error :=
  Error ("encoding/hex: invalid byte: " ++ String c EmptyString).

(** [reverseHexTable]: the value of a hexadecimal digit, of either case. *)
Definition fromHexChar (c : ascii) : option Z :=
  let n := Z.of_N (N_of_ascii c) in
  if ((48 <=? n) && (n <=? 57))%Z then Some (n - 48)%Z
  else if ((97 <=? n) && (n <=? 102))%Z then Some (n - 97 + 10)%Z
  else if ((65 <=? n) && (n <=? 70))%Z then Some (n - 65 + 10)%Z
  else None.

(** [Decode]: two digits make a byte; the first bad digit stops the
    decoding; a single digit left over is [ErrLength].  The bytes decoded
    before the error are returned with it. *)
Fixpoint Decode (src : string) : bytes * option error :=
  match src with
  | EmptyString => ([], None)
  | String p EmptyString =>
      match fromHexChar p with
      | None => ([], Some (InvalidByteError p))
      | Some _ => ([], Some ErrLength)
      end
  | String p (String q rest) =>
      match fromHexChar p with
      | None => ([], Some (InvalidByteError p))
      | Some a =>
          match fromHexChar q with
          | None => ([], Some (InvalidByteError q))
          | Some b =>
              let '(bs, err) := Decode rest in
              (Z.lor (Z.shiftl a 4) b :: bs, err)
          end
      end
  end.

Definition DecodeString (s : string) : bytes * option error := Decode s.

(** [hextable] *)
Definition hextable (n : Z) : ascii :=
  nth (Z.to_nat n)
      ["0"; "1"; "2"; "3"; "4"; "5"; "6"; "7"; "8"; "9";
       "a"; "b"; "c"; "d"; "e"; "f"]%char "0"%char.

(** [EncodeToString], which is also what [%x] prints for a byte slice. *)
Fixpoint EncodeToString (src : bytes) : string :=
  match src with
  | [] => EmptyString
  | v :: src' =>
      String (hextable (Z.shiftr v 4))
             (String (hextable (Z.land v 15)) (EncodeToString src'))
  end.

End hex.

(** [[]byte(s)] *)
Definition bytes_of_string (s : string) : bytes :=
  map (fun c => Z.of_N (N_of_ascii c)) (list_ascii_of_string s).

(** ** [sign] and [textsign] ([repl/account_commands.go]) *)
Module signing.

Local Open Scope string_scope.

Section Signing.

Context {C : Type} `{repl.Client C}.
Variable T : Type.
Variable read_inputNotBlank : string -> T -> string * T.
Variable read_multipleChoice : list string -> T -> Z * T.
Variable createAccountMsg : string.
Variable Address_String : LocalAccount -> string.
Variable msgSignMsg : string.
Variable msgTextSignMsg : string.
Variable Sign2 : PrivateKey -> bytes -> bytes.

Local Notation "x <- m ;; k" := (repl.bind T m (fun x => k))
  (at level 61, m at next level, right associativity).

Local Abbreviation getCurrent :=
  (repl.getCurrent T read_inputNotBlank read_multipleChoice createAccountMsg
                   Address_String).

Definition sign : repl.M T unit :=
  current <- getCurrent ;;
  match current with
  | Err err => repl.emit T (repl.LogError "failed to get account" err)
  | Ok acc =>
      msgStr <- repl.inputNotBlank T read_inputNotBlank msgSignMsg ;;
      match hex.DecodeString msgStr with
      | (_, Some err) =>
          repl.emit T (repl.LogError "failed to decode msg hex string: %v" err)
      | (msg, None) =>
          let signature := Sign2 (PrivKey acc) msg in
          repl.emit T (repl.Println
                         [repl.printPrefix;
                          "signature (in hex): "
                          ++ hex.EncodeToString signature])
      end
  end.

Definition textsign : repl.M T unit :=
  current <- getCurrent ;;
  match current with
  | Err err => repl.emit T (repl.LogError "failed to get account" err)
  | Ok acc =>
      msg <- repl.inputNotBlank T read_inputNotBlank msgTextSignMsg ;;
      let signature := Sign2 (PrivKey acc) (bytes_of_string msg) in
      repl.emit T (repl.Println
                     [repl.printPrefix;
                      "signature (in hex): " ++ hex.EncodeToString signature])
  end.

End Signing.

End signing.

(** ** [strings.Replace] with an empty replacement, and [commandLineParams] *)
Module params.

Local Open Scope string_scope.

(** The scan of [strings.Replace(s, old, "", -1)] for a non-empty [old]:
    from left to right, each occurrence of [old] is dropped and the scan
    goes on behind it; [skip] counts the bytes of an occurrence that are
    still to be dropped. *)
Fixpoint drop_occurrences (skip : nat) (old s : string) : string :=
  match s with
  | EmptyString => EmptyString
  | String ch s' =>
      match skip with
      | S k => drop_occurrences k old s'
      | O =>
          if String.prefix old s
          then drop_occurrences (String.length old - 1) old s'
          else String ch (drop_occurrences 0 old s')
      end
  end.

(** [strings.Replace(s, old, "", -1)]: when [old] is the replacement
    itself (the empty string) [s] comes back unchanged. *)
Definition Replace_with_empty (s old : string) : string :=
  if String.eqb old EmptyString then s else drop_occurrences 0 old s.

Section Params.

Context {C : Type}.
Variable T : Type.

(** [strings.TrimSpace] *)
Variable TrimSpace : string -> string.

Definition commandLineParams (idx : Z) (input : string)
  : @repl.M C T string :=
  fun w =>
    match (if (idx <? 0)%Z then None
           else nth_error (repl.commands (repl.this w)) (Z.to_nat idx)) with
    | None => (repl.Panicked "runtime error: index out of range", w)
    | Some c =>
        let params := Replace_with_empty input (repl.text c) in
        (repl.Returned (TrimSpace params), w)
    end.

End Params.

End params.

(** A client with canned answers, to exercise each path. *)
Record canned : Type := {
  opens : bool;
  lists : result (list string);
  sets : option error;
  answers : result LocalAccount
}.

Definition canned_Client : repl.Client canned := {|
  repl.WalletInfo := fun st => st;
  repl.OpenWallet := fun st => (opens st, st);
  repl.NewWallet := fun st => (opens st, st);
  repl.CloseWallet := fun st => st;
  repl.CreateAccount := fun _ st => (Err (Error "refused"), st);
  repl.CurrentAccount := fun st => (answers st, st);
  repl.SetCurrentAccount := fun _ st => (sets st, st);
  repl.ListAccounts := fun st => (lists st, st);
  repl.StoreAccounts := fun st => (None, st)
|}.

(** * Properties *)

(** ** The transaction codec *)

(** The two encodings of the specification's TransactionCodec, as
    [Transfer] computes them: [InterfaceToBytes] applied to a pointer to
    the unsigned part, and to a pointer to the whole transaction. *)
Definition encodeUnsigned (t : InnerSerializableSignedTransaction)
  : result bytes :=
  client.InterfaceToBytes xdr.Marshal (xdr.Ptr (Some (reflect_Inner t))).

Definition encodeSigned (t : InnerSerializableSignedTransaction) (sig : bytes)
  : result bytes :=
  client.InterfaceToBytes xdr.Marshal
    (xdr.Ptr (Some (reflect_Signed {| Inner := t; Signature := sig |}))).

(** The bytes the specification lists for the unsigned fields. *)
Definition unsigned_layout (t : InnerSerializableSignedTransaction) : bytes :=
  xdr.EncodeUhyper (AccountNonce t) ++ xdr.EncodeUhyper (Amount t)
  ++ Recipient t
  ++ xdr.EncodeUhyper (GasLimit t) ++ xdr.EncodeUhyper (Price t).

(** A transfer of 500000000000 units with nonce 0, gas price 1 and gas
    limit 100, and a 64-byte signature, used to exercise the statements
    below. *)
Definition example_recipient : Address :=
  [1; 2; 3; 4; 5; 6; 7; 8; 9; 10; 11; 12; 13; 14; 15; 16; 17; 18; 19; 20].

Definition example_tx : InnerSerializableSignedTransaction :=
  {| AccountNonce := 0; Amount := 500000000000;
     Recipient := example_recipient; GasLimit := 100; Price := 1 |}.

Definition example_signature : bytes := repeat 171 SignatureSize.

(** A data directory whose accounts file does not parse, a node that
    accepts the connection, and [path.Join] on two clean elements. *)
Definition corrupt_disk : store_file.disk :=
  [("data/accounts.json"%string, store_file.Garbage "{not json")].

Definition join_path (dir name : string) : string :=
  (dir ++ "/" ++ name)%string.

Definition connect_ok (g : unit) : option error * unit := (None, g).

(** The dispatch rule in the specification's words: the first command, in
    list order, whose text is a prefix of the input. *)
Definition first_prefix_match (txt : string) (cs : list repl.command)
  : option repl.command :=
  find (fun c => String.prefix (repl.text c) txt) cs.

(** The calls made on the client, read off a trace. *)
Fixpoint calls_of (evs : list repl.event) : list repl.call :=
  match evs with
  | [] => []
  | repl.Call c :: evs' => c :: calls_of evs'
  | _ :: evs' => calls_of evs'
  end.

(** The events by which the operator selects an account: the menu of
    [multipleChoice] and the [SetCurrentAccount] call. *)
Definition is_selection (e : repl.event) : bool :=
  match e with
  | repl.Prompt_multipleChoice _ => true
  | repl.Call (repl.call_SetCurrentAccount _) => true
  | _ => false
  end.

(** The world once the client has answered the call [c] and is left in
    state [cl]. *)
Definition after_call {C T : Type} (c : repl.call) (cl : C)
           (w : @repl.world C T) : @repl.world C T :=
  {| repl.this := {| repl.commands := repl.commands (repl.this w);
                     repl.client := cl;
                     repl.clientOpen := repl.clientOpen (repl.this w);
                     repl.input := repl.input (repl.this w) |};
     repl.terminal := repl.terminal w;
     repl.trace := repl.trace w ++ [repl.Call c] |}.

(** A scripted operator: the lines to be typed and the menu entries to be
    picked, in order. *)
Definition script : Type := list string * list Z.

Definition script_inputNotBlank (msg : string) (t : script) : string * script :=
  (hd EmptyString (fst t), (tl (fst t), snd t)).

Definition script_multipleChoice (choices : list string) (t : script)
  : Z * script :=
  (hd 0 (snd t), (fst t, tl (snd t))).

Definition example_keygen (n : nat) : bytes * bytes :=
  (repeat (Z.of_nat n) 32, repeat (Z.of_nat n) 64).

Definition example_Address_String (ac : LocalAccount) : string := Name ac.

Definition empty_session : session.state :=
  {| session.accounts := []; session.current := None; session.draws := 0;
     session.saved := None; session.writable := true |}.

Definition alice : LocalAccount :=
  {| Name := "alice"; PubKey := repeat 0 32; PrivKey := repeat 0 64 |}.

(** One account, none selected. *)
Definition alice_session : session.state :=
  {| session.accounts := [alice]; session.current := None;
     session.draws := 1; session.saved := Some [alice];
     session.writable := true |}.

Definition example_world (st : session.state) (t : script)
  : @repl.world session.state script :=
  {| repl.this := {| repl.commands := []; repl.client := st;
                     repl.clientOpen := true; repl.input := EmptyString |};
     repl.terminal := t;
     repl.trace := [] |}.

(** Reading a run of decimal digits. *)
Definition read_decimal (s : string) : option N :=
  option_map N.of_uint (DecimalString.NilEmpty.uint_of_string s).

(** The world [w] with the client in state [c], the terminal in state [t]
    and the events [evs] added to the trace. *)
Definition advanced {C T : Type} (w : @repl.world C T) (c : C) (t : T)
           (evs : list repl.event) : @repl.world C T :=
  {| repl.this := {| repl.commands := repl.commands (repl.this w);
                     repl.client := c;
                     repl.clientOpen := repl.clientOpen (repl.this w);
                     repl.input := repl.input (repl.this w) |};
     repl.terminal := t;
     repl.trace := repl.trace w ++ evs |}.

(** The dispatcher's own state is untouched and the trace has only
    grown. *)
Definition same_dispatcher {C T : Type} (w w' : @repl.world C T) : Prop :=
  repl.commands (repl.this w') = repl.commands (repl.this w)
  /\ repl.clientOpen (repl.this w') = repl.clientOpen (repl.this w)
  /\ repl.input (repl.this w') = repl.input (repl.this w)
  /\ exists evs, repl.trace w' = repl.trace w ++ evs.

(** The command table is the one [initializeCommands] builds for the
    current value of [clientOpen]. *)
Definition table_consistent {C : Type} (r : @repl.repl C) : Prop :=
  repl.commands r
  = repl.accountCommands (repl.clientOpen r) ++ repl.otherCommands.

(** The fields are [uint64]s and the recipient is a 20-byte address. *)
Definition well_formed_tx (t : InnerSerializableSignedTransaction) : Prop :=
  is_uint64 (AccountNonce t) /\ is_uint64 (Amount t)
  /\ List.length (Recipient t) = AddressLength
  /\ is_uint64 (GasLimit t) /\ is_uint64 (Price t).

(** A saver that puts the store in front of the files on the disk. *)
Definition example_save (path : string) (s : Store) (d : store_file.disk)
  : option error * store_file.disk :=
  (None, (path, store_file.Accounts s) :: d).

(** [old] occurs in [s]. *)
Definition occurs (old s : string) : Prop :=
  exists pre post : string, s = (pre ++ old ++ post)%string.

(** Worlds over the canned client, with the command table of
    [initializeCommands], and inputs to exercise the statements. *)
Definition canned_world (st : canned) (t : script) (open : bool)
  : @repl.world canned script :=
  {| repl.this :=
       {| repl.commands := repl.accountCommands open ++ repl.otherCommands;
          repl.client := st;
          repl.clientOpen := open;
          repl.input := EmptyString |};
     repl.terminal := t;
     repl.trace := [] |}.

Definition refused : error := Error "refused".

Definition canned_ok : canned :=
  {| opens := true; lists := Ok ["alice"%string; "bob"%string];
     sets := None; answers := Ok alice |}.

Definition canned_unselected : canned :=
  {| opens := false; lists := Ok ["alice"%string; "bob"%string];
     sets := None; answers := Err refused |}.

Definition canned_refusing : canned :=
  {| opens := false; lists := Ok ["alice"%string; "bob"%string];
     sets := Some refused; answers := Err refused |}.

Definition no_other_method (f : repl.method)
  : @repl.M canned script unit :=
  fun w => (repl.Returned tt, w).

Definition example_tx2 : InnerSerializableSignedTransaction :=
  {| AccountNonce := 1; Amount := 500000000000;
     Recipient := example_recipient; GasLimit := 100; Price := 1 |}.

Definition example_Sign2 (key : PrivateKey) (msg : bytes) : bytes :=
  firstn 64 (msg ++ key ++ repeat 0 64).

(** An operator who types the text [hi] at the text prompt and its bytes
    in hexadecimal at the other. *)
Definition prompt_reader (msg : string) (t : script) : string * script :=
  (if String.eqb msg "text" then "hi"%string else "6869"%string, t).

Definition bad_hex_reader (msg : string) (t : script) : string * script :=
  ("686"%string, t).

Definition example_TrimSpace (s : string) : string := s.

(** A backend with one stored account and none selected, a signing
    primitive that yields a signature for a 64-byte key and nothing for
    any other key, and a node that accepts what it is sent. *)
Definition example_backend : client.WalletBackend unit :=
  {| client.grpc := tt; client.store := [alice];
     client.accountsFilePath := "data/accounts.json";
     client.currentAccount := None |}.



Arguments xdr.EncodeUhyper : simpl never.

(** Reading eight bytes back, most significant first. *)
Definition DecodeUhyper (bs : bytes) : Z :=
  fold_left (fun acc b => acc * 256 + b) bs 0.

Lemma encode_Struct (fs : list xdr.value) :
  xdr.encode (xdr.Struct fs) = xdr.encodeStruct fs.
Proof. destruct fs; reflexivity. Qed.

Lemma InterfaceToBytes_Marshal (i : xdr.value) :
  client.InterfaceToBytes xdr.Marshal i = xdr.encode i.
Proof.
  unfold client.InterfaceToBytes, xdr.Marshal. simpl.
  destruct (xdr.encode i); reflexivity.
Qed.

Lemma padding_mult4 (n : nat) : (n mod 4 = 0)%nat -> xdr.padding n = 0%nat.
Proof. intros E. unfold xdr.padding. rewrite E. reflexivity. Qed.

Lemma EncodeFixedOpaque_aligned (bs : bytes) :
  (List.length bs mod 4 = 0)%nat -> xdr.EncodeFixedOpaque bs = bs.
Proof.
  intros E. unfold xdr.EncodeFixedOpaque.
  rewrite (padding_mult4 _ E). simpl. apply app_nil_r.
Qed.

Lemma EncodeUhyper_length (v : Z) : List.length (xdr.EncodeUhyper v) = 8%nat.
Proof. reflexivity. Qed.

Lemma encode_Inner (t : InnerSerializableSignedTransaction) :
  xdr.encode (reflect_Inner t)
  = Ok (xdr.EncodeUhyper (AccountNonce t) ++ xdr.EncodeUhyper (Amount t)
        ++ xdr.EncodeFixedOpaque (Recipient t)
        ++ xdr.EncodeUhyper (GasLimit t) ++ xdr.EncodeUhyper (Price t)).
Proof.
  unfold reflect_Inner. rewrite encode_Struct.
  cbn [xdr.encodeStruct xdr.encode].
  rewrite app_nil_r. reflexivity.
Qed.

Lemma encode_Signed (t : SerializableSignedTransaction) :
  xdr.encode (reflect_Signed t)
  = match xdr.encode (reflect_Inner (Inner t)) with
    | Err e => Err e
    | Ok u => Ok (u ++ xdr.EncodeFixedOpaque (Signature t))
    end.
Proof.
  unfold reflect_Signed. rewrite encode_Struct.
  cbn [xdr.encodeStruct]. destruct (xdr.encode (reflect_Inner (Inner t))).
  - cbn [xdr.encode]. rewrite app_nil_r. reflexivity.
  - reflexivity.
Qed.

Lemma copy_length (dst src : bytes) :
  List.length (copy dst src) = List.length dst.
Proof.
  unfold copy. rewrite length_app, length_firstn, length_skipn. lia.
Qed.

Lemma copy_full (dst src : bytes) :
  List.length src = List.length dst -> copy dst src = src.
Proof.
  intros E. unfold copy. rewrite E, Nat.min_id.
  rewrite <- E at 1. rewrite firstn_all.
  rewrite skipn_all. apply app_nil_r.
Qed.

Lemma land_255 (x : Z) : Z.land x 255 = x mod 256.
Proof. change 255 with (Z.ones 8). rewrite Z.land_ones by lia. reflexivity. Qed.

Lemma EncodeUhyper_bytes (v : Z) : Forall is_byte (xdr.EncodeUhyper v).
Proof.
  unfold xdr.EncodeUhyper, is_byte.
  repeat (apply Forall_cons; [rewrite land_255; apply Z.mod_pos_bound; lia|]).
  apply Forall_nil.
Qed.

Lemma shiftr_step (v k : Z) :
  0 <= k -> Z.shiftr v (k + 8) = Z.shiftr v k / 256.
Proof.
  intros Hk. rewrite !Z.shiftr_div_pow2 by lia.
  rewrite Z.pow_add_r by lia. rewrite Z.div_div by lia. reflexivity.
Qed.

(** The eight bytes are the value itself: nothing is lost and nothing is
    added. *)
Lemma DecodeUhyper_EncodeUhyper (v : Z) :
  is_uint64 v -> DecodeUhyper (xdr.EncodeUhyper v) = v.
Proof.
  unfold is_uint64, uint64_max. intros Hv.
  unfold DecodeUhyper, xdr.EncodeUhyper. cbn [fold_left].
  rewrite !land_255.
  change 56 with (48 + 8). rewrite (shiftr_step v 48) by lia.
  change 48 with (40 + 8). rewrite (shiftr_step v 40) by lia.
  change 40 with (32 + 8). rewrite (shiftr_step v 32) by lia.
  change 32 with (24 + 8). rewrite (shiftr_step v 24) by lia.
  change 24 with (16 + 8). rewrite (shiftr_step v 16) by lia.
  change 16 with (8 + 8). rewrite (shiftr_step v 8) by lia.
  change (Z.shiftr v 8) with (Z.shiftr v (0 + 8)).
  rewrite (shiftr_step v 0) by lia. rewrite Z.shiftr_0_r.
  set (a1 := v / 256). set (a2 := a1 / 256). set (a3 := a2 / 256).
  set (a4 := a3 / 256). set (a5 := a4 / 256). set (a6 := a5 / 256).
  set (a7 := a6 / 256).
  assert (H0 := Z.div_mod v 256). assert (H1 := Z.div_mod a1 256).
  assert (H2 := Z.div_mod a2 256). assert (H3 := Z.div_mod a3 256).
  assert (H4 := Z.div_mod a4 256). assert (H5 := Z.div_mod a5 256).
  assert (H6 := Z.div_mod a6 256).
  assert (H7 : a7 mod 256 = a7).
  { apply Z.mod_small. subst a7 a6 a5 a4 a3 a2 a1.
    rewrite !Z.div_div by lia. split.
    - apply Z.div_pos; lia.
    - apply Z.div_lt_upper_bound; lia. }
  fold a1 in H0. fold a2 in H1. fold a3 in H2. fold a4 in H3.
  fold a5 in H4. fold a6 in H5. fold a7 in H6.
  lia.
Qed.

(** The signature that [Transfer] stores: [copy] into the zeroed 64-byte
    array. *)
Lemma Transfer_unfold (G : Type)
      (submit : G -> bytes -> result TransactionState * G)
      (Marshal : xdr.value -> result bytes)
      (Sign2 : PrivateKey -> bytes -> bytes)
      (w : client.WalletBackend G) (t : InnerSerializableSignedTransaction)
      (key : PrivateKey) :
  client.Transfer G submit Marshal Sign2 w (Recipient t) (AccountNonce t)
                  (Amount t) (Price t) (GasLimit t) key
  = let buf := client.drop_error
                 (client.InterfaceToBytes Marshal
                    (xdr.Ptr (Some (reflect_Inner t)))) in
    let sig := copy (repeat 0 SignatureSize) (Sign2 key buf) in
    match client.InterfaceToBytes Marshal
            (xdr.Ptr (Some (reflect_Signed {| Inner := t; Signature := sig |})))
    with
    | Err err => (Err err, w)
    | Ok b =>
        let '(state, g) := submit (client.grpc G w) b in
        (state, {| client.grpc := g; client.store := client.store G w;
                   client.accountsFilePath := client.accountsFilePath G w;
                   client.currentAccount := client.currentAccount G w |})
    end.
Proof. destruct t; reflexivity. Qed.

Lemma encodeUnsigned_eq (t : InnerSerializableSignedTransaction) :
  encodeUnsigned t
  = Ok (xdr.EncodeUhyper (AccountNonce t) ++ xdr.EncodeUhyper (Amount t)
        ++ xdr.EncodeFixedOpaque (Recipient t)
        ++ xdr.EncodeUhyper (GasLimit t) ++ xdr.EncodeUhyper (Price t)).
Proof.
  unfold encodeUnsigned. rewrite InterfaceToBytes_Marshal.
  cbn [xdr.encode]. apply encode_Inner.
Qed.

Lemma encodeSigned_eq (t : InnerSerializableSignedTransaction) (sig : bytes) :
  encodeSigned t sig
  = match encodeUnsigned t with
    | Err e => Err e
    | Ok u => Ok (u ++ xdr.EncodeFixedOpaque sig)
    end.
Proof.
  unfold encodeSigned, encodeUnsigned. rewrite !InterfaceToBytes_Marshal.
  cbn [xdr.encode]. rewrite encode_Signed. reflexivity.
Qed.

(** C1.  For every transaction and every 64-byte signature, the encoding
    of the signed transaction is the encoding of the unsigned fields
    followed by the encoding of the signature (the 64 bytes themselves),
    all three produced by [InterfaceToBytes]; and this is what [Transfer]
    hands to the node when the signing primitive returns that
    signature. *)
Theorem signed_encoding_appends_signature
        (t : InnerSerializableSignedTransaction) (sig : bytes)
        (Hsig : List.length sig = SignatureSize) :
  exists unsigned : bytes,
    encodeUnsigned t = Ok unsigned
    /\ client.InterfaceToBytes xdr.Marshal (xdr.ByteArray sig) = Ok sig
    /\ encodeSigned t sig = Ok (unsigned ++ sig)
    /\ forall (G : Type) (submit : G -> bytes -> result TransactionState * G)
              (Sign2 : PrivateKey -> bytes -> bytes)
              (w : client.WalletBackend G) (key : PrivateKey),
        Sign2 key unsigned = sig ->
        fst (client.Transfer G submit xdr.Marshal Sign2 w (Recipient t)
                             (AccountNonce t) (Amount t) (Price t)
                             (GasLimit t) key)
        = fst (submit (client.grpc G w) (unsigned ++ sig)).
Proof.
  assert (Hal : xdr.EncodeFixedOpaque sig = sig).
  { apply EncodeFixedOpaque_aligned. rewrite Hsig. reflexivity. }
  eexists. split; [apply encodeUnsigned_eq|].
  split.
  { rewrite InterfaceToBytes_Marshal. cbn [xdr.encode]. now rewrite Hal. }
  split.
  { rewrite encodeSigned_eq, encodeUnsigned_eq, Hal. reflexivity. }
  intros G submit Sign2 w key HS.
  rewrite Transfer_unfold. cbv zeta.
  fold (encodeUnsigned t). rewrite encodeUnsigned_eq.
  cbn [client.drop_error]. rewrite HS.
  rewrite copy_full by (rewrite repeat_length; exact Hsig).
  fold (encodeSigned t sig).
  rewrite encodeSigned_eq, encodeUnsigned_eq, Hal.
  destruct (submit (client.grpc G w) _) as [st g]. reflexivity.
Qed.

Lemma signed_encoding_appends_signature_witness :
  List.length example_signature = SignatureSize
  /\ exists unsigned : bytes,
      encodeUnsigned example_tx = Ok unsigned
      /\ encodeSigned example_tx example_signature
         = Ok (unsigned ++ example_signature).
Proof.
  split; [reflexivity|].
  destruct (signed_encoding_appends_signature example_tx example_signature
              eq_refl) as [u [Hu [_ [Hs _]]]].
  exists u. split; assumption.
Defined.

Lemma encodeUnsigned_layout (t : InnerSerializableSignedTransaction) :
  List.length (Recipient t) = AddressLength ->
  encodeUnsigned t = Ok (unsigned_layout t).
Proof.
  intros Hrecipient. rewrite encodeUnsigned_eq.
  rewrite EncodeFixedOpaque_aligned by (rewrite Hrecipient; reflexivity).
  reflexivity.
Qed.

(** C2.  The bytes that [Transfer] signs are, in this order, the nonce,
    the amount, the recipient address, the gas limit and the gas price:
    eight bytes for each integer (most significant first, from which the
    integer reads back unchanged) and the twenty bytes of the address:
    fifty-two bytes, with no padding and nothing in between. *)
Theorem signing_payload_layout
        (t : InnerSerializableSignedTransaction)
        (Hrecipient : List.length (Recipient t) = AddressLength) :
  encodeUnsigned t
  = Ok (xdr.EncodeUhyper (AccountNonce t) ++ xdr.EncodeUhyper (Amount t)
        ++ Recipient t
        ++ xdr.EncodeUhyper (GasLimit t) ++ xdr.EncodeUhyper (Price t))
  /\ List.length (unsigned_layout t) = (8 + 8 + 20 + 8 + 8)%nat
  /\ (forall v, List.length (xdr.EncodeUhyper v) = 8%nat
                /\ Forall is_byte (xdr.EncodeUhyper v)
                /\ (is_uint64 v -> DecodeUhyper (xdr.EncodeUhyper v) = v))
  /\ forall (G : Type) (submit : G -> bytes -> result TransactionState * G)
            (Sign2 : PrivateKey -> bytes -> bytes)
            (w : client.WalletBackend G) (key : PrivateKey),
      fst (client.Transfer G submit xdr.Marshal Sign2 w (Recipient t)
                           (AccountNonce t) (Amount t) (Price t)
                           (GasLimit t) key)
      = fst (submit (client.grpc G w)
               (unsigned_layout t
                ++ copy (repeat 0 SignatureSize)
                        (Sign2 key (unsigned_layout t)))).
Proof.
  assert (Hu := encodeUnsigned_layout t Hrecipient).
  split; [exact Hu|].
  split.
  { unfold unsigned_layout. rewrite !length_app, !EncodeUhyper_length.
    rewrite Hrecipient. reflexivity. }
  split.
  { intros v. split; [apply EncodeUhyper_length|].
    split; [apply EncodeUhyper_bytes|apply DecodeUhyper_EncodeUhyper]. }
  intros G submit Sign2 w key.
  rewrite Transfer_unfold. cbv zeta.
  fold (encodeUnsigned t). rewrite Hu. cbn [client.drop_error].
  set (sig := copy (repeat 0 SignatureSize) (Sign2 key (unsigned_layout t))).
  fold (encodeSigned t sig). rewrite encodeSigned_eq, Hu.
  rewrite EncodeFixedOpaque_aligned.
  - destruct (submit (client.grpc G w) _) as [st g]. reflexivity.
  - subst sig. rewrite copy_length, repeat_length. reflexivity.
Qed.

Lemma signing_payload_layout_witness :
  List.length (Recipient example_tx) = AddressLength
  /\ encodeUnsigned example_tx
     = Ok ([0; 0; 0; 0; 0; 0; 0; 0]
           ++ [0; 0; 0; 116; 106; 82; 136; 0]
           ++ example_recipient
           ++ [0; 0; 0; 0; 0; 0; 0; 100]
           ++ [0; 0; 0; 0; 0; 0; 0; 1]).
Proof.
  split; [reflexivity|].
  exact (proj1 (signing_payload_layout example_tx eq_refl)).
Defined.

(** ** [Transfer] *)

(** When encoding the signed transaction fails, [Transfer] returns that
    error and the node is not contacted. *)
Lemma Transfer_signed_encoding_failure (G : Type)
      (submit : G -> bytes -> result TransactionState * G)
      (Marshal : xdr.value -> result bytes)
      (Sign2 : PrivateKey -> bytes -> bytes)
      (w : client.WalletBackend G) (t : InnerSerializableSignedTransaction)
      (key : PrivateKey) (e : error) :
  (forall sig,
      client.InterfaceToBytes Marshal
        (xdr.Ptr (Some (reflect_Signed {| Inner := t; Signature := sig |})))
      = Err e) ->
  client.Transfer G submit Marshal Sign2 w (Recipient t) (AccountNonce t)
                  (Amount t) (Price t) (GasLimit t) key
  = (Err e, w).
Proof.
  intros Hfail. rewrite Transfer_unfold. cbv zeta. rewrite Hfail. reflexivity.
Qed.

(** When encoding the unsigned fields fails, [Transfer] goes on as if the
    encoding were empty: it signs the empty buffer. *)
Lemma Transfer_unsigned_encoding_failure (G : Type)
      (submit : G -> bytes -> result TransactionState * G)
      (Marshal : xdr.value -> result bytes)
      (Sign2 : PrivateKey -> bytes -> bytes)
      (w : client.WalletBackend G) (t : InnerSerializableSignedTransaction)
      (key : PrivateKey) (e : error) :
  client.InterfaceToBytes Marshal (xdr.Ptr (Some (reflect_Inner t))) = Err e ->
  client.Transfer G submit Marshal Sign2 w (Recipient t) (AccountNonce t)
                  (Amount t) (Price t) (GasLimit t) key
  = match client.InterfaceToBytes Marshal
            (xdr.Ptr (Some (reflect_Signed
               {| Inner := t;
                  Signature := copy (repeat 0 SignatureSize) (Sign2 key []) |})))
    with
    | Err err => (Err err, w)
    | Ok b =>
        let '(state, g) := submit (client.grpc G w) b in
        (state, {| client.grpc := g; client.store := client.store G w;
                   client.accountsFilePath := client.accountsFilePath G w;
                   client.currentAccount := client.currentAccount G w |})
    end.
Proof.
  intros Hfail. rewrite Transfer_unfold. cbv zeta. rewrite Hfail. reflexivity.
Qed.



(** C9.  Whatever the encoder, the signing primitive and the node do
    (the node may accept, refuse or time out, and may change the state of
    the gRPC client), [Transfer] leaves the account store, the path of the
    accounts file and the current account as they were; what would be
    persisted is unchanged; and the answer depends on the backend only
    through its gRPC client, so that no nonce kept in the backend enters
    the transaction. *)
Theorem Transfer_preserves_local_state
        (G : Type) (submit : G -> bytes -> result TransactionState * G)
        (Marshal : xdr.value -> result bytes)
        (Sign2 : PrivateKey -> bytes -> bytes)
        (w : client.WalletBackend G) (recipient : Address)
        (nonce amount gasPrice gasLimit : Z) (key : PrivateKey) :
  let w' := snd (client.Transfer G submit Marshal Sign2 w recipient nonce
                                 amount gasPrice gasLimit key) in
  client.store G w' = client.store G w
  /\ client.currentAccount G w' = client.currentAccount G w
  /\ client.CurrentAccount G w' = client.CurrentAccount G w
  /\ client.accountsFilePath G w' = client.accountsFilePath G w
  /\ (forall (Disk : Type)
             (save : string -> Store -> Disk -> option error * Disk)
             (d : Disk),
         client.StoreAccounts G Disk save w' d
         = client.StoreAccounts G Disk save w d)
  /\ (forall w2 : client.WalletBackend G,
         client.grpc G w2 = client.grpc G w ->
         fst (client.Transfer G submit Marshal Sign2 w2 recipient nonce
                              amount gasPrice gasLimit key)
         = fst (client.Transfer G submit Marshal Sign2 w recipient nonce
                                amount gasPrice gasLimit key)).
Proof.
  unfold client.Transfer, client.StoreAccounts, client.CurrentAccount.
  cbn [Inner Signature].
  destruct (client.InterfaceToBytes Marshal (xdr.Ptr (Some (reflect_Signed _))))
    as [b|e].
  - destruct (submit (client.grpc G w) b) as [st g] eqn:Es. cbn.
    repeat split; try reflexivity.
    intros w2 E. rewrite E, Es. reflexivity.
  - cbn. repeat split; reflexivity.
Qed.

(** ** [NewWalletBackend] *)

(** C4 (as stated, refuted).  The accounts file is present and does not
    parse: the loader reports [CorruptStoreError], and [NewWalletBackend]
    nevertheless succeeds with an empty store; the error reaches the log
    only. *)
Lemma NewWalletBackend_corrupt_file_not_reported :
  store_file.LoadAccounts "data/accounts.json" corrupt_disk
  = Err store_file.CorruptStoreError
  /\ client.NewWalletBackend unit (fun _ _ => tt) connect_ok
       store_file.disk store_file.LoadAccounts join_path
       "data" "localhost" 9092 corrupt_disk
     = (Ok {| client.grpc := tt; client.store := empty_Store;
              client.accountsFilePath := "data/accounts.json";
              client.currentAccount := None |},
        [client.LogError "cannot load account from file %s: %s"
                         "data/accounts.json" store_file.CorruptStoreError]).
Proof. split; reflexivity. Qed.

(** C4 (amended).  When loading the accounts file fails,
    [NewWalletBackend] writes one line to the error log, naming the file
    and the error, and goes on with an empty store and no current
    account; the only error it returns is that of the connection to the
    node. *)
Theorem NewWalletBackend_load_failure
        (G : Type) (NewGRPCClient : string -> Z -> G)
        (Connect : G -> option error * G)
        (Disk : Type) (LoadAccounts : string -> Disk -> result Store)
        (path_Join : string -> string -> string)
        (dataDir grpcServer : string) (grpcPort : Z) (disk : Disk)
        (e : error)
        (Hload : LoadAccounts (path_Join dataDir client.accountsFileName) disk
                 = Err e) :
  let path := path_Join dataDir client.accountsFileName in
  let r := client.NewWalletBackend G NewGRPCClient Connect Disk LoadAccounts
             path_Join dataDir grpcServer grpcPort disk in
  snd r = [client.LogError "cannot load account from file %s: %s" path e]
  /\ match fst r with
     | Ok w =>
         fst (Connect (NewGRPCClient grpcServer grpcPort)) = None
         /\ client.store G w = empty_Store
         /\ client.currentAccount G w = None
         /\ client.accountsFilePath G w = path
     | Err e' => fst (Connect (NewGRPCClient grpcServer grpcPort)) = Some e'
     end.
Proof.
  cbv zeta. unfold client.NewWalletBackend. rewrite Hload.
  destruct (Connect (NewGRPCClient grpcServer grpcPort)) as [[e'|] g]; cbn.
  - split; reflexivity.
  - repeat split; reflexivity.
Qed.

Lemma NewWalletBackend_load_failure_witness :
  store_file.LoadAccounts (join_path "data" client.accountsFileName)
                          corrupt_disk
  = Err store_file.CorruptStoreError
  /\ snd (client.NewWalletBackend unit (fun _ _ => tt) connect_ok
            store_file.disk store_file.LoadAccounts join_path
            "data" "localhost" 9092 corrupt_disk)
     = [client.LogError "cannot load account from file %s: %s"
                        "data/accounts.json" store_file.CorruptStoreError].
Proof.
  split; [reflexivity|].
  exact (proj1 (NewWalletBackend_load_failure unit (fun _ _ => tt) connect_ok
                  store_file.disk store_file.LoadAccounts join_path
                  "data" "localhost" 9092 corrupt_disk
                  store_file.CorruptStoreError eq_refl)).
Defined.

(** ** The command layer *)

Lemma matches_prefix (txt : string) (c : repl.command) :
  repl.matches txt c = String.prefix (repl.text c) txt.
Proof.
  unfold repl.matches. generalize (repl.text c) as p. clear c.
  intros p. revert txt.
  induction p as [|a p IH]; intros [|b s]; try reflexivity.
  cbn [String.length Nat.leb substring String.eqb String.prefix].
  rewrite <- IH. destruct (ascii_dec a b) as [->|Hab].
  - rewrite Ascii.eqb_refl. reflexivity.
  - rewrite Ascii.eqb_sym. apply Ascii.eqb_neq in Hab. rewrite Hab.
    apply andb_false_r.
Qed.

(** What [String.prefix] decides. *)
Lemma prefix_iff_append (p s : string) :
  String.prefix p s = true <-> exists rest, s = (p ++ rest)%string.
Proof.
  revert s. induction p as [|a p IH]; intros s.
  - split; [intros _; exists s; reflexivity|]. destruct s; reflexivity.
  - destruct s as [|b s]; cbn [String.prefix].
    + split; [discriminate|]. intros [rest E]. discriminate.
    + destruct (ascii_dec a b) as [->|Hab].
      * rewrite IH. split; intros [rest E]; exists rest.
        -- cbn. now rewrite E.
        -- cbn in E. now injection E.
      * split; [discriminate|]. intros [rest E]. cbn in E.
        injection E as E1 _. congruence.
Qed.

Section ReplFacts.

Context {C : Type} {client_impl : repl.Client C}.
Variable T : Type.
Variable read_inputNotBlank : string -> T -> string * T.
Variable read_multipleChoice : list string -> T -> Z * T.
Variable createAccountMsg : string.
Variable Address_String : LocalAccount -> string.
Variable other_method : repl.method -> @repl.M C T unit.

Local Abbreviation bind := (@repl.bind C T _ _).
Local Abbreviation update := (@repl.update C T).
Local Abbreviation emit := (@repl.emit C T).
Local Abbreviation initializeCommands := (@repl.initializeCommands C T).
Local Abbreviation createAccount :=
  (repl.createAccount T read_inputNotBlank createAccountMsg Address_String).
Local Abbreviation chooseAccount :=
  (repl.chooseAccount T read_inputNotBlank read_multipleChoice
                      createAccountMsg Address_String).
Local Abbreviation getCurrent :=
  (repl.getCurrent T read_inputNotBlank read_multipleChoice
                   createAccountMsg Address_String).
Local Abbreviation invoke :=
  (repl.invoke T read_inputNotBlank read_multipleChoice
               createAccountMsg Address_String other_method).
Local Abbreviation executor :=
  (repl.executor T read_inputNotBlank read_multipleChoice
                 createAccountMsg Address_String other_method).
Local Abbreviation executor_range :=
  (repl.executor_range T read_inputNotBlank read_multipleChoice
                       createAccountMsg Address_String other_method).

Lemma executor_range_find (cs : list repl.command) (txt : string) :
  executor_range cs txt
  = match first_prefix_match txt cs with
    | Some c =>
        bind (update (repl.set_input txt))
                  (fun _ => invoke (repl.fn c))
    | None =>
        emit (repl.Println [repl.printPrefix; "invalid command."%string])
    end.
Proof.
  unfold first_prefix_match.
  induction cs as [|c cs IH]; cbn [repl.executor_range find].
  - reflexivity.
  - rewrite matches_prefix. destruct (String.prefix (repl.text c) txt).
    + reflexivity.
    + exact IH.
Qed.

(** C7.  On every input and every command list, [executor] runs the
    handler of the first command, in list order, whose text is a prefix of
    the input, after recording the input; when no command text is a
    prefix of the input it runs no handler and prints the invalid-command
    line. *)
Theorem executor_first_prefix_match (txt : string) (w : @repl.world C T) :
  executor txt w
  = match first_prefix_match txt (repl.commands (repl.this w)) with
    | Some c =>
        bind (update (repl.set_input txt))
                  (fun _ => invoke (repl.fn c)) w
    | None =>
        emit (repl.Println [repl.printPrefix; "invalid command."%string]) w
    end.
Proof.
  unfold repl.executor. rewrite executor_range_find.
  destruct (first_prefix_match txt (repl.commands (repl.this w))); reflexivity.
Qed.

(** C8.  After [initializeCommands], with the wallet open or closed, the
    input [state-stream-account] runs [printAccountRewardsStream], the
    handler that [state-stream-rewards] runs. *)
Theorem stream_account_runs_rewards_stream (w : @repl.world C T) :
  bind initializeCommands
            (fun _ => executor "state-stream-account") w
  = bind initializeCommands
      (fun _ => bind (update (repl.set_input "state-stream-account"))
                  (fun _ => other_method repl.r_printAccountRewardsStream)) w
  /\ bind initializeCommands
               (fun _ => executor "state-stream-rewards") w
     = bind initializeCommands
         (fun _ => bind (update (repl.set_input "state-stream-rewards"))
                     (fun _ => other_method repl.r_printAccountRewardsStream)) w.
Proof.
  unfold repl.bind, initializeCommands, repl.update.
  unfold repl.executor.
  split; rewrite executor_range_find;
    cbn [repl.this repl.commands repl.set_commands repl.clientOpen];
    destruct (repl.clientOpen (repl.this w)); reflexivity.
Qed.

(** The world that [createAccount] leaves: the client in state [c], the
    terminal after the alias was read, and the events [evs] added. *)
Local Abbreviation after_createAccount w c evs :=
  ({| repl.this := {| repl.commands := repl.commands (repl.this w);
                      repl.client := c;
                      repl.clientOpen := repl.clientOpen (repl.this w);
                      repl.input := repl.input (repl.this w) |};
      repl.terminal := snd (read_inputNotBlank createAccountMsg
                              (repl.terminal w));
      repl.trace := repl.trace w ++ evs |}).

Lemma createAccount_run (w : @repl.world C T) :
  let alias := fst (read_inputNotBlank createAccountMsg (repl.terminal w)) in
  let opening := [repl.Println [repl.printPrefix; "Create a new account"%string];
                  repl.Prompt_inputNotBlank createAccountMsg;
                  repl.Call (repl.call_CreateAccount alias)] in
  createAccount w
  = match repl.CreateAccount alias (repl.client (repl.this w)) with
    | (Err err, c1) =>
        (repl.Returned tt,
         after_createAccount w c1
           (opening ++ [repl.LogError "Failed to create a new account: %v" err]))
    | (Ok ac, c1) =>
        match repl.StoreAccounts c1 with
        | (Some err, c2) =>
            (repl.Returned tt,
             after_createAccount w c2
               (opening ++ [repl.Call repl.call_StoreAccounts;
                            repl.LogError "Failed to save the new account: %v" err]))
        | (None, c2) =>
            (repl.Returned tt,
             after_createAccount w c2
               (opening ++ [repl.Call repl.call_StoreAccounts;
                            repl.Printf "%s Created account: %s, address: %s \n"
                                        [repl.printPrefix; Name ac;
                                         Address_String ac]]))
        end
    end.
Proof.
  cbv zeta.
  unfold repl.createAccount, repl.bind, repl.emit, repl.inputNotBlank,
    repl.with_client.
  cbn [repl.this repl.terminal repl.trace repl.client repl.commands
       repl.clientOpen repl.input].
  destruct (read_inputNotBlank createAccountMsg (repl.terminal w))
    as [alias t1].
  cbn [repl.this repl.terminal repl.trace repl.client repl.commands
       repl.clientOpen repl.input fst snd].
  destruct (repl.CreateAccount alias (repl.client (repl.this w)))
    as [[ac|err] c1];
    cbn [repl.this repl.terminal repl.trace repl.client repl.commands
         repl.clientOpen repl.input].
  - destruct (repl.StoreAccounts c1) as [[err|] c2];
      cbn [repl.this repl.terminal repl.trace repl.client repl.commands
           repl.clientOpen repl.input];
      rewrite <- !app_assoc; reflexivity.
  - rewrite <- !app_assoc. reflexivity.
Qed.

(** C10.  When [CreateAccount] returns an error, [createAccount] returns
    after logging it: the only call made on the client is that
    [CreateAccount], [StoreAccounts] is not called, and the client is left
    in the state in which [CreateAccount] left it. *)
Theorem createAccount_failure_skips_StoreAccounts
        (w : @repl.world C T) (e : error) (c1 : C)
        (Hfail : repl.CreateAccount
                   (fst (read_inputNotBlank createAccountMsg (repl.terminal w)))
                   (repl.client (repl.this w))
                 = (Err e, c1)) :
  exists evs : list repl.event,
    createAccount w = (repl.Returned tt, after_createAccount w c1 evs)
    /\ calls_of evs
       = [repl.call_CreateAccount
            (fst (read_inputNotBlank createAccountMsg (repl.terminal w)))]
    /\ ~ In (repl.Call repl.call_StoreAccounts) evs
    /\ In (repl.LogError "Failed to create a new account: %v" e) evs.
Proof.
  pose proof (createAccount_run w) as Hrun. cbv zeta in Hrun.
  rewrite Hfail in Hrun. eexists. split; [exact Hrun|].
  split; [reflexivity|]. split.
  - cbn. intros [H|[H|[H|[H|[]]]]]; discriminate.
  - cbn. auto.
Qed.

(** When [CreateAccount] succeeds, [StoreAccounts] is called once, after
    it. *)
Lemma createAccount_success_stores
      (w : @repl.world C T) (ac : LocalAccount) (c1 : C) :
  repl.CreateAccount
    (fst (read_inputNotBlank createAccountMsg (repl.terminal w)))
    (repl.client (repl.this w)) = (Ok ac, c1) ->
  exists evs : list repl.event,
    createAccount w
    = (repl.Returned tt,
       after_createAccount w (snd (repl.StoreAccounts c1)) evs)
    /\ calls_of evs
       = [repl.call_CreateAccount
            (fst (read_inputNotBlank createAccountMsg (repl.terminal w)));
          repl.call_StoreAccounts]
    /\ existsb is_selection evs = false.
Proof.
  intros Hok. pose proof (createAccount_run w) as Hrun. cbv zeta in Hrun.
  rewrite Hok in Hrun.
  destruct (repl.StoreAccounts c1) as [[err|] c2];
    eexists; (split; [exact Hrun|]); repeat split.
Qed.

(** With no account listed, [chooseAccount] is [createAccount]. *)
Lemma chooseAccount_empty (w : @repl.world C T) (c1 : C) :
  repl.ListAccounts (repl.client (repl.this w)) = (Ok [], c1) ->
  chooseAccount w = createAccount (after_call repl.call_ListAccounts c1 w).
Proof.
  intros Hlist. unfold repl.chooseAccount.
  unfold repl.bind at 1. unfold repl.with_client at 1.
  rewrite Hlist. reflexivity.
Qed.

Lemma getCurrent_run (w : @repl.world C T) :
  getCurrent w
  = match repl.CurrentAccount (repl.client (repl.this w)) with
    | (Ok ac, c1) => (repl.Returned (Ok ac), after_call repl.call_CurrentAccount c1 w)
    | (Err _, c1) =>
        bind chooseAccount
             (fun _ => repl.with_client T repl.call_CurrentAccount
                                        repl.CurrentAccount)
             (after_call repl.call_CurrentAccount c1 w)
    end.
Proof.
  unfold repl.getCurrent.
  unfold repl.bind at 1. unfold repl.with_client at 1.
  destruct (repl.CurrentAccount (repl.client (repl.this w)))
    as [[ac|e] c1]; reflexivity.
Qed.

(** C6 (amended).  The fallback is in the command layer: when the
    client's [CurrentAccount] reports an error, [getCurrent] runs
    [chooseAccount] and then asks once more, and what the second query
    answers is the result; when the query succeeds, [getCurrent] returns
    its answer at once.  The backend's [CurrentAccount] is the stored
    selection and nothing else: with no account selected it returns nil,
    whatever the store holds, and it returns what [SetCurrentAccount] was
    last given; it has no error result, picks no account and leaves the
    backend as it is. *)
Theorem getCurrent_performs_the_fallback
        (w : @repl.world C T) (e : error) (c1 : C)
        (Hnone : repl.CurrentAccount (repl.client (repl.this w))
                 = (Err e, c1)) :
  getCurrent w
  = bind chooseAccount
         (fun _ => repl.with_client T repl.call_CurrentAccount
                                    repl.CurrentAccount)
         (after_call repl.call_CurrentAccount c1 w)
  /\ (forall (G : Type) (b : client.WalletBackend G),
         client.CurrentAccount G b = client.currentAccount G b)
  /\ (forall (G : Type) (g : G) (s : Store) (path : string),
         client.CurrentAccount G
           {| client.grpc := g; client.store := s;
              client.accountsFilePath := path;
              client.currentAccount := None |} = None)
  /\ (forall (G : Type) (b : client.WalletBackend G)
             (a : option LocalAccount),
         client.CurrentAccount G (client.SetCurrentAccount G b a) = a
         /\ client.store G (client.SetCurrentAccount G b a)
            = client.store G b)
  /\ (forall (w' : @repl.world C T) (ac : LocalAccount) (c' : C),
         repl.CurrentAccount (repl.client (repl.this w')) = (Ok ac, c') ->
         getCurrent w'
         = (repl.Returned (Ok ac),
            after_call repl.call_CurrentAccount c' w')).
Proof.
  split; [|split; [reflexivity|split; [reflexivity|split]]].
  - rewrite getCurrent_run, Hnone. reflexivity.
  - intros G b a. split; reflexivity.
  - intros w' ac c' Hok. rewrite getCurrent_run, Hok. reflexivity.
Qed.

End ReplFacts.

(** ** The command layer over the session of the specification *)

Section SessionFacts.

Variable keygen : nat -> bytes * bytes.
Variable T : Type.
Variable read_inputNotBlank : string -> T -> string * T.
Variable read_multipleChoice : list string -> T -> Z * T.
Variable createAccountMsg : string.
Variable Address_String : LocalAccount -> string.

Local Abbreviation impl := (session.session_Client keygen).
Local Abbreviation createAccount :=
  (@repl.createAccount session.state impl T read_inputNotBlank
                       createAccountMsg Address_String).
Local Abbreviation chooseAccount :=
  (@repl.chooseAccount session.state impl T read_inputNotBlank
                       read_multipleChoice createAccountMsg Address_String).
Local Abbreviation getCurrent :=
  (@repl.getCurrent session.state impl T read_inputNotBlank
                    read_multipleChoice createAccountMsg Address_String).

Lemma session_createAccount_first (alias : string) (st : session.state) :
  session.accounts st = [] ->
  exists (ac : LocalAccount) (st1 : session.state),
    session.createAccount keygen alias st = (Ok ac, st1)
    /\ Name ac = alias
    /\ session.accounts st1 = [ac]
    /\ session.current st1 = Some 0%nat.
Proof.
  intros Hempty. unfold session.createAccount. rewrite Hempty. cbn.
  destruct (keygen (session.draws st)) as [pub priv].
  eexists. eexists. split; [reflexivity|]. repeat split.
Qed.

Lemma persistAccounts_keeps_selection (st : session.state) :
  session.accounts (snd (session.persistAccounts st)) = session.accounts st
  /\ session.current (snd (session.persistAccounts st)) = session.current st.
Proof.
  unfold session.persistAccounts. destruct (session.writable st); split;
    reflexivity.
Qed.

Lemma currentAccount_selected (st : session.state) (ac : LocalAccount) :
  session.current st = Some 0%nat -> session.accounts st = [ac] ->
  session.currentAccount st = (Ok ac, st).
Proof.
  intros Hcur Hacc. unfold session.currentAccount.
  rewrite Hcur, Hacc. reflexivity.
Qed.

Lemma currentAccount_NoAccounts (st : session.state) :
  session.accounts st = [] ->
  session.currentAccount st = (Err session.NoCurrentAccountError, st).
Proof.
  intros Hempty. unfold session.currentAccount. rewrite Hempty.
  destruct (session.current st) as [[|i]|]; reflexivity.
Qed.

Lemma createAccount_from_NoAccounts (w : @repl.world session.state T) :
  session.accounts (repl.client (repl.this w)) = [] ->
  exists (w' : @repl.world session.state T) (ac : LocalAccount)
         (evs : list repl.event),
    createAccount w = (repl.Returned tt, w')
    /\ repl.trace w' = repl.trace w ++ evs
    /\ existsb is_selection evs = false
    /\ Name ac = fst (read_inputNotBlank createAccountMsg (repl.terminal w))
    /\ session.accounts (repl.client (repl.this w')) = [ac]
    /\ session.current (repl.client (repl.this w')) = Some 0%nat.
Proof.
  intros Hnone.
  destruct (session_createAccount_first
              (fst (read_inputNotBlank createAccountMsg (repl.terminal w)))
              _ Hnone) as [ac [st1 [Hc [Hname [Hacc Hcur]]]]].
  destruct (@createAccount_success_stores session.state impl T
              read_inputNotBlank createAccountMsg Address_String w ac st1 Hc)
    as [evs [Hrun [_ Hsel]]].
  destruct (persistAccounts_keeps_selection st1) as [Ka Kc].
  change (@repl.StoreAccounts session.state impl) with session.persistAccounts
    in Hrun.
  eexists. exists ac, evs. split; [exact Hrun|].
  cbn [repl.trace repl.this repl.client].
  split; [reflexivity|]. split; [exact Hsel|]. split; [exact Hname|].
  split; congruence.
Qed.

(** C5.  In a session that holds no accounts, the account that the
    command layer's [createAccount] creates is the current account
    afterwards, whether or not saving succeeds, and the run contains no
    selection by the operator: no menu and no [SetCurrentAccount].  The
    same holds when the creation is reached through [getCurrent] (which,
    finding no current account, runs [chooseAccount], which, finding no
    accounts, runs [createAccount]): [getCurrent] returns the new
    account. *)
Theorem first_account_becomes_current
        (w : @repl.world session.state T)
        (Hnone : session.NoAccounts (repl.client (repl.this w))) :
  (exists (w' : @repl.world session.state T) (ac : LocalAccount)
          (evs : list repl.event),
      createAccount w = (repl.Returned tt, w')
      /\ repl.trace w' = repl.trace w ++ evs
      /\ existsb is_selection evs = false
      /\ Name ac = fst (read_inputNotBlank createAccountMsg (repl.terminal w))
      /\ session.accounts (repl.client (repl.this w')) = [ac]
      /\ session.AccountSelected ac (repl.client (repl.this w'))
      /\ fst (session.currentAccount (repl.client (repl.this w'))) = Ok ac)
  /\ (exists (w' : @repl.world session.state T) (ac : LocalAccount),
         getCurrent w = (repl.Returned (Ok ac), w')
         /\ Name ac
            = fst (read_inputNotBlank createAccountMsg (repl.terminal w))
         /\ session.AccountSelected ac (repl.client (repl.this w'))
         /\ existsb is_selection (skipn (List.length (repl.trace w))
                                        (repl.trace w')) = false).
Proof.
  unfold session.NoAccounts in Hnone. split.
  - destruct (createAccount_from_NoAccounts w Hnone)
      as [w' [ac [evs [Hrun [Htr [Hsel [Hname [Hacc Hcur]]]]]]]].
    exists w', ac, evs. repeat (split; [assumption|]). split.
    + exists 0%nat. rewrite Hacc. split; [exact Hcur|reflexivity].
    + rewrite (currentAccount_selected _ ac Hcur Hacc). reflexivity.
  - rewrite (@getCurrent_run session.state impl).
    change (@repl.CurrentAccount session.state impl)
      with session.currentAccount.
    rewrite (currentAccount_NoAccounts _ Hnone).
    set (st := repl.client (repl.this w)) in *.
    set (w1 := after_call repl.call_CurrentAccount st w).
    unfold repl.bind.
    rewrite (@chooseAccount_empty session.state impl T read_inputNotBlank
               read_multipleChoice createAccountMsg Address_String w1 st)
      by (cbn; unfold session.listAccounts; subst st; rewrite Hnone;
          reflexivity).
    set (w2 := after_call repl.call_ListAccounts st w1).
    destruct (createAccount_from_NoAccounts w2 Hnone)
      as [w' [ac [evs [Hrun [Htr [Hsel [Hname [Hacc Hcur]]]]]]]].
    rewrite Hrun. unfold repl.with_client.
    change (@repl.CurrentAccount session.state impl)
      with session.currentAccount.
    rewrite (currentAccount_selected _ ac Hcur Hacc).
    eexists. exists ac. split; [reflexivity|].
    cbn [repl.this repl.client repl.trace].
    split; [exact Hname|]. split.
    + exists 0%nat. rewrite Hacc. split; [exact Hcur|reflexivity].
    + rewrite Htr. subst w2 w1. cbn [after_call repl.trace].
      rewrite <- !app_assoc. rewrite skipn_app, skipn_all, Nat.sub_diag.
      cbn [skipn app existsb is_selection orb].
      rewrite existsb_app, Hsel. reflexivity.
Qed.

End SessionFacts.

(** ** The statements above, on a scripted operator *)

Lemma first_account_becomes_current_witness :
  session.NoAccounts (repl.client (repl.this
                        (example_world empty_session (["alice"%string], []))))
  /\ exists (w' : @repl.world session.state script) (ac : LocalAccount),
      @repl.createAccount session.state (session.session_Client example_keygen)
        script script_inputNotBlank "Enter the account alias: "
        example_Address_String
        (example_world empty_session (["alice"%string], []))
      = (repl.Returned tt, w')
      /\ Name ac = "alice"%string
      /\ fst (session.currentAccount (repl.client (repl.this w'))) = Ok ac.
Proof.
  split; [reflexivity|].
  destruct (first_account_becomes_current example_keygen script
              script_inputNotBlank script_multipleChoice
              "Enter the account alias: "
              example_Address_String
              (example_world empty_session (["alice"%string], []))
              eq_refl)
    as [[w' [ac [evs [Hrun [_ [_ [Hname [_ [_ Hcur]]]]]]]]] _].
  exists w', ac. split; [exact Hrun|]. split; [exact Hname|exact Hcur].
Defined.

(** C6 (as stated, refuted).  With one account stored and none selected,
    the backend's [CurrentAccount] returns nil: no account, and no error
    either, since a pointer is all the method returns. *)
Lemma CurrentAccount_nil_without_error :
  client.store unit example_backend = [alice]
  /\ client.currentAccount unit example_backend = None
  /\ client.CurrentAccount unit example_backend = None.
Proof.
  repeat split.
Qed.

Lemma getCurrent_performs_the_fallback_witness :
  session.currentAccount alice_session
  = (Err session.NoCurrentAccountError, alice_session)
  /\ fst (@repl.getCurrent session.state
            (session.session_Client example_keygen)
            script script_inputNotBlank script_multipleChoice
            "Enter the account alias: " example_Address_String
            (example_world alice_session ([], [1])))
     = repl.Returned (Ok alice).
Proof.
  split; [reflexivity|].
  rewrite (proj1 (@getCurrent_performs_the_fallback session.state
                    (session.session_Client example_keygen)
                    script script_inputNotBlank script_multipleChoice
                    "Enter the account alias: " example_Address_String
                    (example_world alice_session ([], [1]))
                    session.NoCurrentAccountError alice_session eq_refl)).
  reflexivity.
Defined.

Lemma createAccount_failure_skips_StoreAccounts_witness :
  session.createAccount example_keygen "alice" alice_session
  = (Err session.DuplicateAliasError, alice_session)
  /\ exists evs : list repl.event,
      snd (@repl.createAccount session.state
             (session.session_Client example_keygen)
             script script_inputNotBlank "Enter the account alias: "
             example_Address_String
             (example_world alice_session (["alice"%string], [])))
      = {| repl.this := repl.this (example_world alice_session ([], []));
           repl.terminal := ([], []);
           repl.trace := evs |}
      /\ ~ In (repl.Call repl.call_StoreAccounts) evs.
Proof.
  split; [reflexivity|].
  destruct (@createAccount_failure_skips_StoreAccounts session.state
              (session.session_Client example_keygen)
              script script_inputNotBlank "Enter the account alias: "
              example_Address_String
              (example_world alice_session (["alice"%string], []))
              session.DuplicateAliasError alice_session eq_refl)
    as [evs [Hrun [_ [Hno _]]]].
  exists evs. split; [rewrite Hrun; reflexivity|exact Hno].
Defined.

(** * More properties *)

(** ** [coinAmount] *)

Section CoinAmountFacts.

Local Open Scope string_scope.

Lemma of_uint_acc_lower (d : Decimal.uint) (acc : positive) :
  (Zpos acc * 10 ^ Z.of_nat (Decimal.nb_digits d)
   <= Zpos (Pos.of_uint_acc d acc))%Z.
Proof.
  revert acc.
  induction d as [|d IHd|d IHd|d IHd|d IHd|d IHd|d IHd|d IHd|d IHd|d IHd|d IHd];
    intros acc; cbn [Pos.of_uint_acc Decimal.nb_digits];
    [cbn; lia | ..];
    rewrite Nat2Z.inj_succ, Z.pow_succ_r by lia;
    match goal with
    | |- (_ <= Z.pos (Pos.of_uint_acc _ ?a))%Z => specialize (IHd a)
    end;
    assert (0 <= 10 ^ Z.of_nat (Decimal.nb_digits d))%Z
      by (apply Z.pow_nonneg; lia);
    nia.
Qed.

Lemma to_uint_head (p : positive) :
  match Pos.to_uint p with
  | Decimal.Nil | Decimal.D0 _ => False
  | _ => True
  end.
Proof.
  pose proof (DecimalPos.Unsigned.to_uint_nonzero p) as Hz.
  pose proof (DecimalPos.Unsigned.to_uint_nonnil p) as Hn.
  pose proof (DecimalPos.Unsigned.to_of (Pos.to_uint p)) as Hn0.
  rewrite DecimalPos.Unsigned.of_to in Hn0. cbn [N.to_uint] in Hn0.
  destruct (Pos.to_uint p) as [|l| | | | | | | | |]; try exact I.
  - congruence.
  - rewrite DecimalFacts.unorm_D0 in Hn0.
    destruct (Decimal.uint_eq_dec l Decimal.Nil) as [->|Hl].
    + apply Hz. reflexivity.
    + pose proof (DecimalFacts.nb_digits_unorm l Hl) as Hb.
      rewrite <- Hn0 in Hb. cbn [Decimal.nb_digits] in Hb. lia.
Qed.

(** Strings: the few facts about [++] that the proofs need. *)
Lemma str_app_assoc (a b c : string) : (a ++ b) ++ c = a ++ (b ++ c).
Proof. induction a as [|x a IH]; cbn; [reflexivity|now rewrite IH]. Qed.

Lemma str_length_app (a b : string) :
  String.length (a ++ b) = (String.length a + String.length b)%nat.
Proof. induction a as [|x a IH]; cbn; [reflexivity|now rewrite IH]. Qed.

Lemma str_app_inj (a c b d : string) :
  String.length a = String.length c -> a ++ b = c ++ d -> a = c /\ b = d.
Proof.
  revert c. induction a as [|x a IH]; intros [|y c] Hl E; try discriminate.
  - split; [reflexivity|exact E].
  - cbn in Hl, E. injection E as -> E. injection Hl as Hl.
    destruct (IH c Hl E) as [-> ->]. split; reflexivity.
Qed.

Lemma str_app_inj_tail (a c b d : string) :
  String.length b = String.length d -> a ++ b = c ++ d -> a = c /\ b = d.
Proof.
  intros Hl E. apply str_app_inj; [|exact E].
  apply (f_equal String.length) in E. rewrite !str_length_app in E. lia.
Qed.

Lemma zeros_length (k : nat) : String.length (account_commands.zeros k) = k.
Proof. induction k; cbn; [reflexivity|now rewrite IHk]. Qed.

Lemma string_of_uint_length (d : Decimal.uint) :
  String.length (DecimalString.NilEmpty.string_of_uint d) = Decimal.nb_digits d.
Proof. induction d; cbn; try rewrite IHd; reflexivity. Qed.

Lemma format_d_length (v : Z) (k : nat) :
  (0 <= v < 10 ^ Z.of_nat k)%Z -> (1 <= k)%nat ->
  (1 <= String.length (account_commands.format_d v) <= k)%nat.
Proof.
  intros Hv Hk. unfold account_commands.format_d.
  destruct (Z.to_N v) as [|p] eqn:En.
  - cbn. lia.
  - cbn [N.to_uint].
    pose proof (to_uint_head p) as Hh.
    pose proof (DecimalPos.Unsigned.of_to p) as Hof.
    assert (Hp : Z.pos p = v) by lia.
    destruct (Pos.to_uint p) as [|l|l|l|l|l|l|l|l|l|l]; try contradiction;
      cbn [DecimalString.NilZero.string_of_uint DecimalString.NilEmpty.string_of_uint String.length];
      rewrite string_of_uint_length;
      cbn [Pos.of_uint] in Hof; injection Hof as Hof;
      match type of Hof with
      | Pos.of_uint_acc _ ?a = _ =>
          pose proof (of_uint_acc_lower l a) as Hlow
      end;
      rewrite Hof, Hp in Hlow;
      (assert (10 ^ Z.of_nat (Decimal.nb_digits l) < 10 ^ Z.of_nat k)%Z
        by (assert (0 < 10 ^ Z.of_nat (Decimal.nb_digits l))%Z
              by (apply Z.pow_pos_nonneg; lia); nia));
      (assert (Z.of_nat (Decimal.nb_digits l) < Z.of_nat k)%Z
        by (apply (Z.pow_lt_mono_r_iff 10); lia));
      lia.
Qed.

Lemma to_uint_nonnil (n : N) : N.to_uint n <> Decimal.Nil.
Proof.
  destruct n as [|p]; [discriminate|].
  apply DecimalPos.Unsigned.to_uint_nonnil.
Qed.

Lemma read_format_d (v : Z) :
  read_decimal (account_commands.format_d v) = Some (Z.to_N v).
Proof.
  unfold read_decimal, account_commands.format_d.
  pose proof (to_uint_nonnil (Z.to_N v)) as Hn.
  assert (E : DecimalString.NilZero.string_of_uint (N.to_uint (Z.to_N v))
              = DecimalString.NilEmpty.string_of_uint (N.to_uint (Z.to_N v))).
  { destruct (N.to_uint (Z.to_N v)); [congruence|reflexivity..]. }
  rewrite E, DecimalString.NilEmpty.usu. cbn [option_map].
  rewrite DecimalN.Unsigned.of_to. reflexivity.
Qed.

Lemma read_zeros (k : nat) (s : string) :
  read_decimal (account_commands.zeros k ++ s) = read_decimal s.
Proof.
  induction k as [|k IH]; [reflexivity|].
  unfold read_decimal in *. cbn [account_commands.zeros append].
  cbn [DecimalString.NilEmpty.uint_of_string].
  rewrite <- IH.
  destruct (DecimalString.NilEmpty.uint_of_string (account_commands.zeros k ++ s)) as [d|];
    reflexivity.
Qed.

Lemma read_format_012d (v : Z) :
  read_decimal (account_commands.format_012d v) = Some (Z.to_N v).
Proof.
  unfold account_commands.format_012d. cbv zeta.
  rewrite read_zeros. apply read_format_d.
Qed.

Lemma format_012d_length (v : Z) :
  (0 <= v < 10 ^ 12)%Z ->
  String.length (account_commands.format_012d v) = 12%nat.
Proof.
  intros Hv. unfold account_commands.format_012d. cbv zeta.
  rewrite str_length_app, zeros_length.
  pose proof (format_d_length v 12 Hv). lia.
Qed.

Lemma coinAmount_SMH (v : Z) :
  (10000000000 <= v)%Z ->
  account_commands.coinAmount v
  = account_commands.format_d (v / account_commands.onesmh) ++ "."
    ++ account_commands.format_012d (v mod account_commands.onesmh) ++ " SMH".
Proof.
  intros Hv. unfold account_commands.coinAmount.
  destruct (1000000000000 <=? v)%Z eqn:E1; [reflexivity|].
  apply Z.leb_gt in E1.
  destruct (10000000000 <=? v)%Z eqn:E2; [|apply Z.leb_gt in E2; lia].
  replace (v / account_commands.onesmh)%Z with 0%Z
    by (symmetry; apply Z.div_small; unfold account_commands.onesmh; lia).
  reflexivity.
Qed.

Lemma coinAmount_Smidge (v : Z) :
  (v < 10000000000)%Z ->
  account_commands.coinAmount v = account_commands.format_d v ++ " Smidge".
Proof.
  intros Hv. unfold account_commands.coinAmount.
  destruct (1000000000000 <=? v)%Z eqn:E1; [apply Z.leb_le in E1; lia|].
  destruct (10000000000 <=? v)%Z eqn:E2; [apply Z.leb_le in E2; lia|].
  reflexivity.
Qed.

Lemma onesmh_mod_bound (v : Z) :
  (0 <= v mod account_commands.onesmh < 10 ^ 12)%Z.
Proof.
  change (10 ^ 12)%Z with account_commands.onesmh.
  apply Z.mod_pos_bound. reflexivity.
Qed.

(** X1.  Below 10000000000 an amount is printed as the number followed by
    [Smidge]; from there on as whole part, a dot, the fraction and [SMH],
    where the fraction always has twelve digits and reads back as the
    amount modulo 10^12, and the whole part as the amount divided by
    10^12 (so the middle branch of the code is the first one with whole
    part 0). *)
Theorem coinAmount_form (v : Z) (Hv : (0 <= v)%Z) :
  ((v < 10000000000)%Z ->
   account_commands.coinAmount v = account_commands.format_d v ++ " Smidge")
  /\ ((10000000000 <= v)%Z ->
      exists frac : string,
        account_commands.coinAmount v
        = account_commands.format_d (v / 1000000000000) ++ "." ++ frac ++ " SMH"
        /\ String.length frac = 12%nat
        /\ read_decimal frac = Some (Z.to_N (v mod 1000000000000))
        /\ read_decimal (account_commands.format_d (v / 1000000000000))
           = Some (Z.to_N (v / 1000000000000))).
Proof.
  split; [apply coinAmount_Smidge|].
  intros Hge. eexists. split; [apply coinAmount_SMH; exact Hge|].
  split; [apply format_012d_length, onesmh_mod_bound|].
  split; [apply read_format_012d|apply read_format_d].
Qed.

(** X2.  Distinct amounts are printed differently: the text shown
    determines the amount. *)
Theorem coinAmount_distinct (a b : Z)
        (Ha : (0 <= a)%Z) (Hb : (0 <= b)%Z) (Hab : a <> b) :
  account_commands.coinAmount a <> account_commands.coinAmount b.
Proof.
  intros E. apply Hab. clear Hab.
  assert (Hmix : forall x y : string, x ++ " SMH" <> y ++ " Smidge").
  { intros x y H.
    change (x ++ " SMH") with (x ++ (" SM" ++ "H")) in H.
    change (y ++ " Smidge") with (y ++ (" Smidg" ++ "e")) in H.
    rewrite <- !str_app_assoc in H.
    apply str_app_inj_tail in H; [|reflexivity].
    destruct H as [_ H]. discriminate. }
  assert (Hsm : forall u v : Z, (0 <= u)%Z -> (0 <= v)%Z ->
             account_commands.format_d u = account_commands.format_d v ->
             u = v).
  { intros u v Hu Hv H. apply (f_equal read_decimal) in H.
    rewrite !read_format_d in H. injection H as H. lia. }
  destruct (Z.lt_ge_cases a 10000000000) as [La|La];
    destruct (Z.lt_ge_cases b 10000000000) as [Lb|Lb].
  - rewrite (coinAmount_Smidge a La), (coinAmount_Smidge b Lb) in E.
    apply str_app_inj_tail in E; [|reflexivity].
    apply Hsm; tauto.
  - rewrite (coinAmount_Smidge a La), (coinAmount_SMH b Lb) in E.
    exfalso. symmetry in E. rewrite <- !str_app_assoc in E.
    exact (Hmix _ _ E).
  - rewrite (coinAmount_SMH a La), (coinAmount_Smidge b Lb) in E.
    exfalso. rewrite <- !str_app_assoc in E. exact (Hmix _ _ E).
  - rewrite (coinAmount_SMH a La), (coinAmount_SMH b Lb) in E.
    rewrite <- !str_app_assoc in E.
    apply str_app_inj_tail in E; [|reflexivity]. destruct E as [E _].
    apply str_app_inj_tail in E;
      [|rewrite !format_012d_length by apply onesmh_mod_bound; reflexivity].
    destruct E as [Ew Ef].
    apply str_app_inj_tail in Ew; [|reflexivity]. destruct Ew as [Ew _].
    apply (f_equal read_decimal) in Ef. rewrite !read_format_012d in Ef.
    injection Ef as Ef.
    pose proof (onesmh_mod_bound a). pose proof (onesmh_mod_bound b).
    assert (Hq : (a / account_commands.onesmh = b / account_commands.onesmh)%Z).
    { apply Hsm; [apply Z.div_pos; [lia|reflexivity]..|exact Ew]. }
    rewrite (Z.div_mod a account_commands.onesmh) by discriminate.
    rewrite (Z.div_mod b account_commands.onesmh) by discriminate.
    rewrite Hq. f_equal. lia.
Qed.

End CoinAmountFacts.

(** ** [chooseAccount], [getCurrent] and the dispatcher *)

Section MoreReplFacts.

Context {C : Type} {client_impl : repl.Client C}.
Variable T : Type.
Variable read_inputNotBlank : string -> T -> string * T.
Variable read_multipleChoice : list string -> T -> Z * T.
Variable createAccountMsg : string.
Variable Address_String : LocalAccount -> string.
Variable other_method : repl.method -> @repl.M C T unit.

Local Abbreviation createAccount :=
  (repl.createAccount T read_inputNotBlank createAccountMsg Address_String).
Local Abbreviation chooseAccount :=
  (repl.chooseAccount T read_inputNotBlank read_multipleChoice
                      createAccountMsg Address_String).
Local Abbreviation getCurrent :=
  (repl.getCurrent T read_inputNotBlank read_multipleChoice
                   createAccountMsg Address_String).
Local Abbreviation invoke :=
  (repl.invoke T read_inputNotBlank read_multipleChoice
               createAccountMsg Address_String other_method).
Local Abbreviation executor :=
  (repl.executor T read_inputNotBlank read_multipleChoice
                 createAccountMsg Address_String other_method).

Local Abbreviation menu accs :=
  [repl.Call repl.call_ListAccounts;
   repl.Println [repl.printPrefix; "Choose an account to load:"%string];
   repl.Prompt_multipleChoice accs].

Lemma chooseAccount_run (w : @repl.world C T) :
  chooseAccount w
  = match repl.ListAccounts (repl.client (repl.this w)) with
    | (Err err, c1) =>
        (repl.Returned tt,
         advanced w c1 (repl.terminal w)
           [repl.Call repl.call_ListAccounts;
            repl.LogError "failure to choose account" err])
    | (Ok accs, c1) =>
        if (List.length accs =? 0)%nat then
          createAccount (after_call repl.call_ListAccounts c1 w)
        else
          let '(n, t1) := read_multipleChoice accs (repl.terminal w) in
          if n =? 0 then
            (repl.Returned tt,
             advanced w c1 t1 (menu accs ++ [repl.Println ["none selected"%string]]))
          else
            let k := repl.wrap_int (n - 1) in
            match repl.SetCurrentAccount k c1 with
            | (Some err, c2) =>
                (repl.Returned tt,
                 advanced w c2 t1
                   (menu accs
                    ++ [repl.Call (repl.call_SetCurrentAccount k);
                        repl.LogError "failure to set current account" err]))
            | (None, c2) =>
                match repl.CurrentAccount c2 with
                | (Err _, c3) =>
                    (repl.Panicked "wtf",
                     advanced w c3 t1
                       (menu accs
                        ++ [repl.Call (repl.call_SetCurrentAccount k);
                            repl.Call repl.call_CurrentAccount]))
                | (Ok account, c3) =>
                    (repl.Returned tt,
                     advanced w c3 t1
                       (menu accs
                        ++ [repl.Call (repl.call_SetCurrentAccount k);
                            repl.Call repl.call_CurrentAccount;
                            repl.Printf
                              "%s Loaded account alias: `%s`, address: %s \n"
                              [repl.printPrefix; Name account;
                               Address_String account]]))
                end
            end
    end.
Proof.
  unfold repl.chooseAccount.
  unfold repl.bind at 1. unfold repl.with_client at 1.
  destruct (repl.ListAccounts (repl.client (repl.this w))) as [[accs|err] c1].
  2:{ unfold repl.emit, advanced. cbn. rewrite <- !app_assoc. reflexivity. }
  destruct (List.length accs =? 0)%nat; [reflexivity|].
  unfold repl.bind, repl.emit, repl.multipleChoice, repl.with_client,
    repl.panic, advanced.
  cbn [repl.this repl.terminal repl.trace repl.client repl.commands
       repl.clientOpen repl.input].
  destruct (read_multipleChoice accs (repl.terminal w)) as [n t1].
  destruct (n =? 0).
  { cbn. rewrite <- !app_assoc. reflexivity. }
  cbn [repl.this repl.terminal repl.trace repl.client repl.commands
       repl.clientOpen repl.input].
  destruct (repl.SetCurrentAccount (repl.wrap_int (n - 1)) c1) as [[err|] c2];
    cbn [repl.this repl.terminal repl.trace repl.client repl.commands
         repl.clientOpen repl.input].
  { rewrite <- !app_assoc. reflexivity. }
  destruct (repl.CurrentAccount c2) as [[account|err] c3];
    cbn [repl.this repl.terminal repl.trace repl.client repl.commands
         repl.clientOpen repl.input];
    rewrite <- !app_assoc; reflexivity.
Qed.

Lemma same_dispatcher_refl (w : @repl.world C T) : same_dispatcher w w.
Proof.
  repeat split. exists []. symmetry. apply app_nil_r.
Qed.

Lemma same_dispatcher_trans (w1 w2 w3 : @repl.world C T) :
  same_dispatcher w1 w2 -> same_dispatcher w2 w3 -> same_dispatcher w1 w3.
Proof.
  intros [A1 [A2 [A3 [e1 A4]]]] [B1 [B2 [B3 [e2 B4]]]].
  repeat split; try congruence.
  exists (e1 ++ e2). rewrite B4, A4. symmetry. apply app_assoc.
Qed.

Lemma same_dispatcher_advanced (w : @repl.world C T) (c : C) (t : T)
      (evs : list repl.event) :
  same_dispatcher w (advanced w c t evs).
Proof. repeat split. exists evs. reflexivity. Qed.

Lemma same_dispatcher_after_call (w : @repl.world C T) (k : repl.call)
      (c : C) :
  same_dispatcher w (after_call k c w).
Proof. repeat split. eexists. reflexivity. Qed.

Lemma createAccount_same_dispatcher (w : @repl.world C T) :
  same_dispatcher w (snd (createAccount w)).
Proof.
  pose proof (@createAccount_run C client_impl T read_inputNotBlank
                createAccountMsg Address_String w) as Hrun.
  cbv zeta in Hrun. rewrite Hrun.
  destruct (repl.CreateAccount _ _) as [[ac|err] c1].
  - destruct (repl.StoreAccounts c1) as [[err|] c2];
      repeat split; eexists; reflexivity.
  - repeat split; eexists; reflexivity.
Qed.

Lemma chooseAccount_same_dispatcher (w : @repl.world C T) :
  same_dispatcher w (snd (chooseAccount w)).
Proof.
  rewrite chooseAccount_run.
  destruct (repl.ListAccounts _) as [[accs|err] c1];
    [|apply same_dispatcher_advanced].
  destruct (List.length accs =? 0)%nat.
  { eapply same_dispatcher_trans;
      [apply same_dispatcher_after_call|apply createAccount_same_dispatcher]. }
  destruct (read_multipleChoice accs (repl.terminal w)) as [n t1].
  destruct (n =? 0); [apply same_dispatcher_advanced|].
  cbv zeta.
  destruct (repl.SetCurrentAccount _ c1) as [[err|] c2];
    [apply same_dispatcher_advanced|].
  destruct (repl.CurrentAccount c2) as [[account|err] c3];
    apply same_dispatcher_advanced.
Qed.

Lemma getCurrent_same_dispatcher (w : @repl.world C T) :
  same_dispatcher w (snd (getCurrent w)).
Proof.
  rewrite (@getCurrent_run C client_impl).
  destruct (repl.CurrentAccount _) as [[ac|err] c1];
    [apply same_dispatcher_after_call|].
  unfold repl.bind.
  pose proof (chooseAccount_same_dispatcher
                (after_call repl.call_CurrentAccount c1 w)) as Hc.
  destruct (chooseAccount (after_call repl.call_CurrentAccount c1 w))
    as [[u|msg] w2]; cbn [snd] in Hc.
  - eapply same_dispatcher_trans; [apply same_dispatcher_after_call|].
    eapply same_dispatcher_trans; [exact Hc|].
    unfold repl.with_client.
    destruct (repl.CurrentAccount (repl.client (repl.this w2))) as [r c3].
    repeat split. eexists. reflexivity.
  - eapply same_dispatcher_trans; [apply same_dispatcher_after_call|exact Hc].
Qed.

(** X3.  The account flows leave the dispatcher alone: [createAccount],
    [chooseAccount] and [getCurrent] change neither the command table,
    nor [clientOpen], nor the recorded input, and they only add to the
    trace; this holds for every client and also when [chooseAccount]
    panics. *)
Theorem account_flows_keep_dispatcher (w : @repl.world C T) :
  same_dispatcher w (snd (createAccount w))
  /\ same_dispatcher w (snd (chooseAccount w))
  /\ same_dispatcher w (snd (getCurrent w)).
Proof.
  split; [apply createAccount_same_dispatcher|].
  split; [apply chooseAccount_same_dispatcher|apply getCurrent_same_dispatcher].
Qed.

Lemma wrap_int_small (x : Z) :
  - 2 ^ 63 <= x < 2 ^ 63 -> repl.wrap_int x = x.
Proof.
  intros Hx. unfold repl.wrap_int.
  rewrite Z.mod_small by lia. lia.
Qed.

(** X5.  A non-zero menu answer [n] is passed on as [SetCurrentAccount(n-1)]
    whatever [n] is (negative, or beyond the list): the command layer
    makes no range check.  No account is created or stored on this
    path. *)
Theorem chooseAccount_forwards_the_pick
        (w : @repl.world C T) (accs : list string) (c1 : C) (n : Z)
        (Hlist : repl.ListAccounts (repl.client (repl.this w)) = (Ok accs, c1))
        (Hne : accs <> [])
        (Hpick : fst (read_multipleChoice accs (repl.terminal w)) = n)
        (Hn : n <> 0) :
  exists evs : list repl.event,
    repl.trace (snd (chooseAccount w))
    = repl.trace w
      ++ [repl.Call repl.call_ListAccounts;
          repl.Println [repl.printPrefix; "Choose an account to load:"%string];
          repl.Prompt_multipleChoice accs;
          repl.Call (repl.call_SetCurrentAccount (repl.wrap_int (n - 1)))]
      ++ evs
    /\ (calls_of evs = [] \/ calls_of evs = [repl.call_CurrentAccount])
    /\ (- 2 ^ 63 < n < 2 ^ 63 -> repl.wrap_int (n - 1) = n - 1).
Proof.
  rewrite chooseAccount_run, Hlist.
  destruct accs as [|a accs]; [congruence|]. cbn [List.length Nat.eqb].
  destruct (read_multipleChoice (a :: accs) (repl.terminal w)) as [n' t1].
  cbn [fst] in Hpick. subst n'.
  destruct (n =? 0) eqn:En; [apply Z.eqb_eq in En; contradiction|].
  cbv zeta.
  destruct (repl.SetCurrentAccount _ c1) as [[err|] c2].
  - eexists. split; [cbn; reflexivity|]. split; [left; reflexivity|].
    intros Hr. apply wrap_int_small. lia.
  - destruct (repl.CurrentAccount c2) as [[account|err] c3];
      (eexists; split; [cbn; reflexivity|]; split; [right; reflexivity|];
       intros Hr; apply wrap_int_small; lia).
Qed.

(** X6.  Answering 0 at the menu selects nothing: the only call made is
    [ListAccounts], the client stays as that call left it, and the run
    ends with the line [none selected]. *)
Theorem chooseAccount_declined
        (w : @repl.world C T) (accs : list string) (c1 : C)
        (Hlist : repl.ListAccounts (repl.client (repl.this w)) = (Ok accs, c1))
        (Hne : accs <> [])
        (Hpick : fst (read_multipleChoice accs (repl.terminal w)) = 0) :
  exists evs : list repl.event,
    chooseAccount w
    = (repl.Returned tt,
       advanced w c1 (snd (read_multipleChoice accs (repl.terminal w))) evs)
    /\ calls_of evs = [repl.call_ListAccounts]
    /\ last evs (repl.Println []) = repl.Println ["none selected"%string].
Proof.
  rewrite chooseAccount_run, Hlist.
  destruct accs as [|a accs]; [congruence|]. cbn [List.length Nat.eqb].
  destruct (read_multipleChoice (a :: accs) (repl.terminal w)) as [n' t1].
  cbn [fst snd] in *. subst n'. cbn [Z.eqb].
  eexists. split; [reflexivity|]. split; reflexivity.
Qed.

(** When the client cannot list the accounts, [chooseAccount] logs the
    error and returns: the operator is not prompted and no other call is
    made. *)
Lemma chooseAccount_list_failure
        (w : @repl.world C T) (err : error) (c1 : C)
        (Hlist : repl.ListAccounts (repl.client (repl.this w)) = (Err err, c1)) :
  chooseAccount w
  = (repl.Returned tt,
     advanced w c1 (repl.terminal w)
       [repl.Call repl.call_ListAccounts;
        repl.LogError "failure to choose account" err]).
Proof. rewrite chooseAccount_run, Hlist. reflexivity. Qed.

(** X7.  When [SetCurrentAccount] refuses the pick, the error is logged,
    [CurrentAccount] is not asked, and [chooseAccount] returns
    normally. *)
Theorem chooseAccount_set_failure
        (w : @repl.world C T) (accs : list string) (c1 c2 : C) (err : error)
        (Hlist : repl.ListAccounts (repl.client (repl.this w)) = (Ok accs, c1))
        (Hne : accs <> [])
        (Hn : fst (read_multipleChoice accs (repl.terminal w)) <> 0)
        (Hset : repl.SetCurrentAccount
                  (repl.wrap_int
                     (fst (read_multipleChoice accs (repl.terminal w)) - 1)) c1
                = (Some err, c2)) :
  exists evs : list repl.event,
    chooseAccount w
    = (repl.Returned tt,
       advanced w c2 (snd (read_multipleChoice accs (repl.terminal w))) evs)
    /\ ~ In repl.call_CurrentAccount (calls_of evs)
    /\ last evs (repl.Println [])
       = repl.LogError "failure to set current account" err.
Proof.
  rewrite chooseAccount_run, Hlist.
  destruct accs as [|a accs]; [congruence|]. cbn [List.length Nat.eqb].
  destruct (read_multipleChoice (a :: accs) (repl.terminal w)) as [n t1].
  cbn [fst snd] in *.
  destruct (n =? 0) eqn:En; [apply Z.eqb_eq in En; contradiction|].
  cbv zeta. rewrite Hset.
  eexists. split; [reflexivity|]. split; [|reflexivity].
  cbn. intros [H|[H|[]]]; discriminate.
Qed.

(** X8.  A client that accepts the selection and then reports no current
    account makes [chooseAccount] panic, and with it everything that is
    sequenced after it. *)
Theorem chooseAccount_panics_on_inconsistent_client
        (w : @repl.world C T) (accs : list string) (c1 c2 c3 : C) (e : error)
        (Hlist : repl.ListAccounts (repl.client (repl.this w)) = (Ok accs, c1))
        (Hne : accs <> [])
        (Hn : fst (read_multipleChoice accs (repl.terminal w)) <> 0)
        (Hset : repl.SetCurrentAccount
                  (repl.wrap_int
                     (fst (read_multipleChoice accs (repl.terminal w)) - 1)) c1
                = (None, c2))
        (Hcur : repl.CurrentAccount c2 = (Err e, c3)) :
  fst (chooseAccount w) = repl.Panicked "wtf"
  /\ forall (A : Type) (k : unit -> @repl.M C T A),
      fst (repl.bind T chooseAccount k w) = repl.Panicked "wtf"
      /\ snd (repl.bind T chooseAccount k w) = snd (chooseAccount w).
Proof.
  assert (Hp : exists w', chooseAccount w = (repl.Panicked "wtf", w')).
  { rewrite chooseAccount_run, Hlist.
    destruct accs as [|a accs]; [congruence|]. cbn [List.length Nat.eqb].
    destruct (read_multipleChoice (a :: accs) (repl.terminal w)) as [n t1].
    cbn [fst snd] in *.
    destruct (n =? 0) eqn:En; [apply Z.eqb_eq in En; contradiction|].
    cbv zeta. rewrite Hset, Hcur. eexists. reflexivity. }
  destruct Hp as [w' Hp]. split; [rewrite Hp; reflexivity|].
  intros A k. unfold repl.bind. rewrite Hp. split; reflexivity.
Qed.

(** X9.  [getCurrent] falls back once: when the first query fails and the
    operator declines to select, the answer of the second query is
    returned as it is, an error included; the operator was prompted once
    and no third query is made. *)
Theorem getCurrent_asks_once
        (w : @repl.world C T) (e : error) (accs : list string) (c1 c2 : C)
        (Hcur : repl.CurrentAccount (repl.client (repl.this w)) = (Err e, c1))
        (Hlist : repl.ListAccounts c1 = (Ok accs, c2))
        (Hne : accs <> [])
        (Hpick : fst (read_multipleChoice accs (repl.terminal w)) = 0) :
  exists evs : list repl.event,
    getCurrent w
    = (repl.Returned (fst (repl.CurrentAccount c2)),
       advanced w (snd (repl.CurrentAccount c2))
                (snd (read_multipleChoice accs (repl.terminal w))) evs)
    /\ calls_of evs
       = [repl.call_CurrentAccount; repl.call_ListAccounts;
          repl.call_CurrentAccount]
    /\ List.length (filter is_selection evs) = 1%nat.
Proof.
  rewrite (@getCurrent_run C client_impl), Hcur.
  unfold repl.bind. rewrite chooseAccount_run.
  cbn [after_call repl.this repl.client repl.terminal]. rewrite Hlist.
  destruct accs as [|a accs]; [congruence|]. cbn [List.length Nat.eqb].
  destruct (read_multipleChoice (a :: accs) (repl.terminal w)) as [n t1].
  cbn [fst snd] in *. subst n. cbn [Z.eqb].
  unfold repl.with_client, advanced, after_call.
  cbn [repl.this repl.client repl.terminal repl.trace repl.commands
       repl.clientOpen repl.input].
  destruct (repl.CurrentAccount c2) as [r c3]. cbn [fst snd].
  eexists. split.
  - rewrite <- !app_assoc. reflexivity.
  - split; reflexivity.
Qed.

(** X4.  What [chooseAccount] may ask of the client, in this order: the list;
    then either nothing more, or the creation of an account followed, if
    it succeeded, by saving, or one [SetCurrentAccount] followed, if it
    succeeded, by one [CurrentAccount].  It panics only on the last of
    these. *)
Theorem chooseAccount_protocol (w : @repl.world C T) :
  exists evs : list repl.event,
    repl.trace (snd (chooseAccount w)) = repl.trace w ++ evs
    /\ (calls_of evs = [repl.call_ListAccounts]
        \/ (exists alias,
               calls_of evs
               = [repl.call_ListAccounts; repl.call_CreateAccount alias])
        \/ (exists alias,
               calls_of evs
               = [repl.call_ListAccounts; repl.call_CreateAccount alias;
                  repl.call_StoreAccounts])
        \/ (exists k,
               calls_of evs
               = [repl.call_ListAccounts; repl.call_SetCurrentAccount k])
        \/ (exists k,
               calls_of evs
               = [repl.call_ListAccounts; repl.call_SetCurrentAccount k;
                  repl.call_CurrentAccount]))
    /\ (fst (chooseAccount w) <> repl.Returned tt ->
        exists k,
          calls_of evs
          = [repl.call_ListAccounts; repl.call_SetCurrentAccount k;
             repl.call_CurrentAccount]).
Proof.
  rewrite chooseAccount_run.
  destruct (repl.ListAccounts _) as [[accs|err] c1].
  2:{ eexists. split; [reflexivity|]. split; [left; reflexivity|].
      intros Hp. exfalso. apply Hp. reflexivity. }
  destruct (List.length accs =? 0)%nat.
  { pose proof (@createAccount_run C client_impl T read_inputNotBlank
                  createAccountMsg Address_String
                  (after_call repl.call_ListAccounts c1 w)) as Hrun.
    cbv zeta in Hrun. rewrite Hrun.
    cbn [after_call repl.this repl.client repl.terminal repl.trace].
    destruct (repl.CreateAccount _ c1) as [[ac|err] c2].
    - destruct (repl.StoreAccounts c2) as [[err|] c3];
        (eexists; split; [cbn [snd repl.trace]; rewrite <- app_assoc;
                          reflexivity|];
         split; [right; right; left; eexists; reflexivity|];
         intros Hp; exfalso; apply Hp; reflexivity).
    - eexists. split; [cbn [snd repl.trace]; rewrite <- app_assoc;
                       reflexivity|].
      split; [right; left; eexists; reflexivity|].
      intros Hp. exfalso. apply Hp. reflexivity. }
  destruct (read_multipleChoice accs (repl.terminal w)) as [n t1].
  destruct (n =? 0).
  { eexists. split; [reflexivity|]. split; [left; reflexivity|].
    intros Hp. exfalso. apply Hp. reflexivity. }
  cbv zeta.
  destruct (repl.SetCurrentAccount _ c1) as [[err|] c2].
  { eexists. split; [reflexivity|].
    split; [right; right; right; left; eexists; reflexivity|].
    intros Hp. exfalso. apply Hp. reflexivity. }
  destruct (repl.CurrentAccount c2) as [[account|err] c3];
    (eexists; split; [reflexivity|];
     split; [right; right; right; right; eexists; reflexivity|];
     intros _; eexists; reflexivity).
Qed.

Local Abbreviation bind := (@repl.bind C T _ _).
Local Abbreviation update := (@repl.update C T).
Local Abbreviation emit := (@repl.emit C T).
Local Abbreviation initializeCommands := (@repl.initializeCommands C T).
Local Abbreviation openWallet := (@repl.openWallet C client_impl T).
Local Abbreviation createWallet := (@repl.createWallet C client_impl T).
Local Abbreviation closeWallet := (@repl.closeWallet C client_impl T).
Local Abbreviation walletInfo := (@repl.walletInfo C client_impl T).

Lemma table_reaches_own_command (open : bool) (c : repl.command)
      (args : string) :
  In c (repl.accountCommands open ++ repl.otherCommands) ->
  first_prefix_match (repl.text c)
                     (repl.accountCommands open ++ repl.otherCommands)
  = Some c
  /\ first_prefix_match (repl.text c ++ " " ++ args)
                        (repl.accountCommands open ++ repl.otherCommands)
     = Some c.
Proof.
  intros HIn. destruct open; cbn in HIn;
    repeat (destruct HIn as [<-|HIn]; [split; reflexivity|]);
    contradiction.
Qed.

(** X10.  No command is shadowed: in either table that [initializeCommands]
    builds, a command's own text, alone or followed by a space and any
    arguments, is dispatched to that command's handler. *)
Theorem executor_reaches_every_command
        (w : @repl.world C T) (c : repl.command) (args : string)
        (Htable : table_consistent (repl.this w))
        (HIn : In c (repl.commands (repl.this w))) :
  executor (repl.text c) w
  = bind (update (repl.set_input (repl.text c)))
         (fun _ => invoke (repl.fn c)) w
  /\ executor (repl.text c ++ " " ++ args) w
     = bind (update (repl.set_input (repl.text c ++ " " ++ args)))
            (fun _ => invoke (repl.fn c)) w.
Proof.
  unfold table_consistent in Htable. rewrite Htable in HIn.
  destruct (table_reaches_own_command _ c args HIn) as [H1 H2].
  unfold repl.executor.
  rewrite !(@executor_range_find C client_impl), Htable, H1, H2.
  split; reflexivity.
Qed.

(** X11.  The commands of the other wallet state are rejected: with the wallet
    closed, every account and wallet-info line, and with the wallet open,
    every wallet-open and wallet-create line, gets the invalid-command
    answer, whatever follows the command text. *)
Theorem executor_rejects_commands_of_the_other_state
        (w : @repl.world C T) (c : repl.command) (rest : string)
        (Htable : table_consistent (repl.this w))
        (HIn : In c (repl.accountCommands
                       (negb (repl.clientOpen (repl.this w))))) :
  executor (repl.text c ++ rest) w
  = emit (repl.Println [repl.printPrefix; "invalid command."%string]) w.
Proof.
  unfold table_consistent in Htable. unfold repl.executor.
  rewrite (@executor_range_find C client_impl), Htable.
  destruct (repl.clientOpen (repl.this w)); cbn in HIn;
    repeat (destruct HIn as [<-|HIn]; [reflexivity|]);
    contradiction.
Qed.

Lemma openWallet_run (w : @repl.world C T) :
  openWallet w
  = (repl.Returned tt,
     let '(opened, c1) := repl.OpenWallet (repl.client (repl.this w)) in
     if opened then
       {| repl.this :=
            {| repl.commands := repl.accountCommands true ++ repl.otherCommands;
               repl.client := repl.WalletInfo c1;
               repl.clientOpen := true;
               repl.input := repl.input (repl.this w) |};
          repl.terminal := repl.terminal w;
          repl.trace := repl.trace w
                        ++ [repl.Call repl.call_OpenWallet;
                            repl.Call repl.call_WalletInfo] |}
     else
       {| repl.this :=
            {| repl.commands := repl.commands (repl.this w);
               repl.client := c1;
               repl.clientOpen := false;
               repl.input := repl.input (repl.this w) |};
          repl.terminal := repl.terminal w;
          repl.trace := repl.trace w
                        ++ [repl.Call repl.call_OpenWallet;
                            repl.Println ["Wallet NOT opened"%string]] |}).
Proof.
  unfold repl.openWallet, repl.bind, repl.with_client, repl.update,
    repl.walletInfo, repl.initializeCommands, repl.emit.
  cbn [repl.this].
  destruct (repl.OpenWallet (repl.client (repl.this w))) as [[|] c1];
    cbn; rewrite <- !app_assoc; reflexivity.
Qed.

Lemma createWallet_run (w : @repl.world C T) :
  createWallet w
  = (repl.Returned tt,
     let '(opened, c1) := repl.NewWallet (repl.client (repl.this w)) in
     if opened then
       {| repl.this :=
            {| repl.commands := repl.accountCommands true ++ repl.otherCommands;
               repl.client := repl.WalletInfo c1;
               repl.clientOpen := true;
               repl.input := repl.input (repl.this w) |};
          repl.terminal := repl.terminal w;
          repl.trace := repl.trace w
                        ++ [repl.Call repl.call_NewWallet;
                            repl.Call repl.call_WalletInfo] |}
     else
       {| repl.this :=
            {| repl.commands := repl.commands (repl.this w);
               repl.client := c1;
               repl.clientOpen := false;
               repl.input := repl.input (repl.this w) |};
          repl.terminal := repl.terminal w;
          repl.trace := repl.trace w
                        ++ [repl.Call repl.call_NewWallet;
                            repl.Println ["Wallet NOT created"%string]] |}).
Proof.
  unfold repl.createWallet, repl.bind, repl.with_client, repl.update,
    repl.walletInfo, repl.initializeCommands, repl.emit.
  cbn [repl.this].
  destruct (repl.NewWallet (repl.client (repl.this w))) as [[|] c1];
    cbn; rewrite <- !app_assoc; reflexivity.
Qed.

Lemma closeWallet_run (w : @repl.world C T) :
  closeWallet w
  = (repl.Returned tt,
     {| repl.this :=
          {| repl.commands := repl.accountCommands false ++ repl.otherCommands;
             repl.client := repl.CloseWallet (repl.client (repl.this w));
             repl.clientOpen := false;
             repl.input := repl.input (repl.this w) |};
        repl.terminal := repl.terminal w;
        repl.trace := repl.trace w ++ [repl.Call repl.call_CloseWallet] |}).
Proof. reflexivity. Qed.

Lemma wallet_openers_only_when_closed (open : bool) (c : repl.command) :
  In c (repl.accountCommands open ++ repl.otherCommands) ->
  repl.fn c = repl.r_openWallet \/ repl.fn c = repl.r_createWallet ->
  open = false.
Proof.
  intros HIn Hfn. destruct open; [|reflexivity]. exfalso.
  cbn in HIn.
  repeat (destruct HIn as [<-|HIn]; [destruct Hfn; discriminate|]).
  contradiction.
Qed.

(** X12.  The command table follows the wallet state: if the table is the one
    [initializeCommands] builds for [clientOpen] before a line is
    executed, it is so afterwards, whatever the line and whatever the
    client answers, provided the handlers that are not modelled keep it
    so. *)
Theorem executor_keeps_the_table_consistent
        (txt : string) (w : @repl.world C T)
        (Hother : forall (f : repl.method) (w0 : @repl.world C T),
            table_consistent (repl.this w0) ->
            table_consistent (repl.this (snd (other_method f w0))))
        (Htable : table_consistent (repl.this w)) :
  table_consistent (repl.this (snd (executor txt w))).
Proof.
  unfold repl.executor. rewrite (@executor_range_find C client_impl).
  destruct (first_prefix_match txt (repl.commands (repl.this w))) as [c|] eqn:Ef;
    [|exact Htable].
  apply find_some in Ef. destruct Ef as [HIn _].
  unfold repl.bind, repl.update.
  set (w1 := {| repl.this := repl.set_input txt (repl.this w);
                repl.terminal := repl.terminal w;
                repl.trace := repl.trace w |}).
  assert (H1 : table_consistent (repl.this w1)) by exact Htable.
  assert (Hkeep : forall w2 : @repl.world C T,
             same_dispatcher w1 w2 -> table_consistent (repl.this w2)).
  { intros w2 [A1 [A2 _]]. unfold table_consistent in *.
    rewrite A1, A2. exact H1. }
  assert (Hclosed : repl.fn c = repl.r_openWallet
                    \/ repl.fn c = repl.r_createWallet ->
                    repl.clientOpen (repl.this w1) = false).
  { intros Hfn. unfold table_consistent in Htable. rewrite Htable in HIn.
    exact (wallet_openers_only_when_closed _ c HIn Hfn). }
  unfold repl.invoke.
  destruct (repl.fn c); try (apply Hother; exact H1).
  - rewrite openWallet_run. cbn [snd].
    destruct (repl.OpenWallet _) as [[|] c1]; [reflexivity|].
    unfold table_consistent in *. cbn [repl.this repl.commands repl.clientOpen].
    rewrite H1, (Hclosed (or_introl eq_refl)). reflexivity.
  - rewrite createWallet_run. cbn [snd].
    destruct (repl.NewWallet _) as [[|] c1]; [reflexivity|].
    unfold table_consistent in *. cbn [repl.this repl.commands repl.clientOpen].
    rewrite H1, (Hclosed (or_intror eq_refl)). reflexivity.
  - exact H1.
  - reflexivity.
  - apply Hkeep, createAccount_same_dispatcher.
  - apply Hkeep, chooseAccount_same_dispatcher.
Qed.

(** X13.  Closing the wallet, from any state, takes the account commands away:
    a line that starts with an open-wallet command text is answered with
    the invalid-command line from then on. *)
Theorem closeWallet_disables_account_commands
        (w : @repl.world C T) (c : repl.command) (rest : string)
        (HIn : In c (repl.accountCommands true)) :
  bind closeWallet (fun _ => executor (repl.text c ++ rest)) w
  = bind closeWallet
         (fun _ => emit (repl.Println [repl.printPrefix;
                                       "invalid command."%string])) w.
Proof.
  unfold repl.bind. rewrite closeWallet_run.
  unfold repl.executor. rewrite (@executor_range_find C client_impl).
  cbn [repl.this repl.commands].
  cbn in HIn.
  repeat (destruct HIn as [<-|HIn]; [reflexivity|]).
  contradiction.
Qed.

(** X14.  A successful [openWallet] asks the client for the wallet info and
    brings the account commands in: the next line that is an
    open-wallet command, with or without arguments, runs that command's
    handler. *)
Theorem openWallet_enables_account_commands
        (w : @repl.world C T) (c : repl.command) (args : string)
        (Hopen : fst (repl.OpenWallet (repl.client (repl.this w))) = true)
        (HIn : In c (repl.accountCommands true)) :
  calls_of (skipn (List.length (repl.trace w))
                  (repl.trace (snd (openWallet w))))
  = [repl.call_OpenWallet; repl.call_WalletInfo]
  /\ bind openWallet (fun _ => executor (repl.text c ++ " " ++ args)) w
     = bind openWallet
            (fun _ => bind (update (repl.set_input (repl.text c ++ " " ++ args)))
                        (fun _ => invoke (repl.fn c))) w.
Proof.
  unfold repl.bind. rewrite openWallet_run.
  destruct (repl.OpenWallet (repl.client (repl.this w))) as [opened c1].
  cbn [fst] in Hopen. subst opened. cbn [snd repl.trace]. split.
  - rewrite skipn_app, skipn_all, Nat.sub_diag. reflexivity.
  - unfold repl.executor. rewrite (@executor_range_find C client_impl).
    cbn [repl.this repl.commands].
    assert (HIn' : In c (repl.accountCommands true ++ repl.otherCommands))
      by (apply in_or_app; left; exact HIn).
    rewrite (proj2 (table_reaches_own_command true c args HIn')).
    reflexivity.
Qed.

(** X15.  A failed [openWallet] reports it and stops there: the wallet info is
    not asked for, the command table is left as it was, and [clientOpen]
    is false. *)
Theorem openWallet_failure
        (w : @repl.world C T)
        (Hfail : fst (repl.OpenWallet (repl.client (repl.this w))) = false) :
  exists (w' : @repl.world C T) (evs : list repl.event),
    openWallet w = (repl.Returned tt, w')
    /\ repl.trace w' = repl.trace w ++ evs
    /\ calls_of evs = [repl.call_OpenWallet]
    /\ last evs (repl.Println []) = repl.Println ["Wallet NOT opened"%string]
    /\ repl.commands (repl.this w') = repl.commands (repl.this w)
    /\ repl.clientOpen (repl.this w') = false.
Proof.
  rewrite openWallet_run.
  destruct (repl.OpenWallet (repl.client (repl.this w))) as [opened c1].
  cbn [fst] in Hfail. subst opened.
  eexists. eexists. split; [reflexivity|]. cbn [repl.trace].
  split; [reflexivity|]. repeat split.
Qed.

End MoreReplFacts.

(** ** The backend *)

Lemma list_app_inj {A : Type} (a c b d : list A) :
  List.length a = List.length c -> a ++ b = c ++ d -> a = c /\ b = d.
Proof.
  revert c. induction a as [|x a IH]; intros [|y c] Hl E; try discriminate.
  - split; [reflexivity|exact E].
  - cbn in Hl, E. injection E as -> E. injection Hl as Hl.
    destruct (IH c Hl E) as [-> ->]. split; reflexivity.
Qed.

Lemma Ok_inj {A : Type} (a b : A) : Ok a = Ok b -> a = b.
Proof. intros H. injection H as H. exact H. Qed.

Lemma EncodeUhyper_inj (u v : Z) :
  is_uint64 u -> is_uint64 v ->
  xdr.EncodeUhyper u = xdr.EncodeUhyper v -> u = v.
Proof.
  intros Hu Hv E. apply (f_equal DecodeUhyper) in E.
  rewrite !DecodeUhyper_EncodeUhyper in E by assumption. exact E.
Qed.

Lemma unsigned_layout_inj (t1 t2 : InnerSerializableSignedTransaction) :
  well_formed_tx t1 -> well_formed_tx t2 ->
  unsigned_layout t1 = unsigned_layout t2 -> t1 = t2.
Proof.
  intros [N1 [A1 [R1 [G1 P1]]]] [N2 [A2 [R2 [G2 P2]]]] E.
  unfold unsigned_layout in E.
  apply list_app_inj in E; [|reflexivity]. destruct E as [En E].
  apply list_app_inj in E; [|reflexivity]. destruct E as [Ea E].
  apply list_app_inj in E; [|congruence]. destruct E as [Er E].
  apply list_app_inj in E; [|reflexivity]. destruct E as [Eg Ep].
  apply EncodeUhyper_inj in En, Ea, Eg, Ep; try assumption.
  destruct t1, t2. cbn in *. congruence.
Qed.

(** X16.  Distinct transactions are signed over distinct bytes, and distinct
    signed transactions go to the node as distinct bytes: the encoding
    loses nothing of the fields or of the signature. *)
Theorem encoding_is_injective
        (t1 t2 : InnerSerializableSignedTransaction)
        (H1 : well_formed_tx t1) (H2 : well_formed_tx t2) :
  (encodeUnsigned t1 = encodeUnsigned t2 -> t1 = t2)
  /\ forall s1 s2 : bytes,
      List.length s1 = SignatureSize -> List.length s2 = SignatureSize ->
      encodeSigned t1 s1 = encodeSigned t2 s2 -> t1 = t2 /\ s1 = s2.
Proof.
  pose proof (encodeUnsigned_layout t1 (proj1 (proj2 (proj2 H1)))) as U1.
  pose proof (encodeUnsigned_layout t2 (proj1 (proj2 (proj2 H2)))) as U2.
  split.
  - rewrite U1, U2. intros E. apply Ok_inj in E.
    apply unsigned_layout_inj; assumption.
  - intros s1 s2 L1 L2. rewrite !encodeSigned_eq, U1, U2.
    rewrite !EncodeFixedOpaque_aligned
      by (rewrite ?L1, ?L2; reflexivity).
    intros E. apply Ok_inj in E.
    assert (Hlen : forall t, well_formed_tx t ->
               List.length (unsigned_layout t) = 52%nat).
    { intros t [_ [_ [R _]]]. unfold unsigned_layout.
      rewrite !length_app, !EncodeUhyper_length, R. reflexivity. }
    apply list_app_inj in E; [|rewrite !Hlen by assumption; reflexivity].
    destruct E as [E ->]. split; [|reflexivity].
    apply unsigned_layout_inj; assumption.
Qed.

Lemma firstn_repeat {A : Type} (x : A) (n k : nat) :
  firstn n (repeat x k) = repeat x (Nat.min n k).
Proof.
  revert k. induction n as [|n IH]; intros [|k]; cbn; try reflexivity.
  now rewrite IH.
Qed.

Lemma skipn_repeat {A : Type} (x : A) (n k : nat) :
  skipn n (repeat x k) = repeat x (k - n).
Proof.
  revert k. induction n as [|n IH]; intros [|k]; cbn; try reflexivity.
  apply IH.
Qed.

(** [copy] into a zeroed array of [k] bytes: the source cut to [k] bytes,
    or filled up with zeros. *)
Lemma copy_into_zeros (k : nat) (src : bytes) :
  copy (repeat 0 k) src = firstn k (src ++ repeat 0 k).
Proof.
  unfold copy. rewrite repeat_length, firstn_app, skipn_repeat, firstn_repeat.
  destruct (Nat.le_gt_cases k (List.length src)) as [Hle|Hgt].
  - rewrite Nat.min_l by exact Hle.
    replace (k - k)%nat with 0%nat by lia.
    replace (k - List.length src)%nat with 0%nat by lia.
    reflexivity.
  - rewrite (Nat.min_r k) by lia.
    rewrite firstn_all. rewrite (firstn_all2 (n := k)) by lia.
    f_equal. f_equal. lia.
Qed.

(** X17.  Whatever the signing primitive returns (nothing, too little, too
    much), [Transfer] with the XDR encoder does not fail on its own: it
    hands the node exactly 116 bytes, the 52 bytes of the fields followed
    by the first 64 bytes of the signature filled up with zeros. *)
Theorem Transfer_submits_116_bytes
        (G : Type) (submit : G -> bytes -> result TransactionState * G)
        (Sign2 : PrivateKey -> bytes -> bytes)
        (w : client.WalletBackend G) (t : InnerSerializableSignedTransaction)
        (key : PrivateKey)
        (Hrecipient : List.length (Recipient t) = AddressLength) :
  exists b : bytes,
    fst (client.Transfer G submit xdr.Marshal Sign2 w (Recipient t)
                         (AccountNonce t) (Amount t) (Price t) (GasLimit t) key)
    = fst (submit (client.grpc G w) b)
    /\ List.length b = 116%nat
    /\ firstn 52 b = unsigned_layout t
    /\ skipn 52 b
       = firstn 64 (Sign2 key (unsigned_layout t) ++ repeat 0 64).
Proof.
  assert (Hu := encodeUnsigned_layout t Hrecipient).
  assert (Hlen : List.length (unsigned_layout t) = 52%nat).
  { unfold unsigned_layout. rewrite !length_app, !EncodeUhyper_length.
    rewrite Hrecipient. reflexivity. }
  set (sig := copy (repeat 0 SignatureSize) (Sign2 key (unsigned_layout t))).
  assert (Hsig : List.length sig = 64%nat)
    by (subst sig; rewrite copy_length; apply repeat_length).
  exists (unsigned_layout t ++ sig). split.
  - rewrite Transfer_unfold. cbv zeta.
    fold (encodeUnsigned t). rewrite Hu. cbn [client.drop_error].
    fold sig. fold (encodeSigned t sig). rewrite encodeSigned_eq, Hu.
    rewrite EncodeFixedOpaque_aligned by (rewrite Hsig; reflexivity).
    destruct (submit (client.grpc G w) _) as [st g]. reflexivity.
  - split; [rewrite length_app, Hlen, Hsig; reflexivity|].
    split.
    + rewrite firstn_app, Hlen, Nat.sub_diag, firstn_O, app_nil_r.
      apply firstn_all2. lia.
    + rewrite skipn_app, Hlen, Nat.sub_diag, skipn_O.
      rewrite skipn_all2 by lia. cbn [app].
      subst sig. apply copy_into_zeros.
Qed.

(** X18.  What [StoreAccounts] saves on a backend fresh from
    [NewWalletBackend]: the store that was loaded, to the path it was
    loaded from; and when loading failed, the empty store to that same
    path.  A new backend has no current account. *)
Theorem StoreAccounts_after_NewWalletBackend
        (G : Type) (NewGRPCClient : string -> Z -> G)
        (Connect : G -> option error * G)
        (Disk : Type) (LoadAccounts : string -> Disk -> result Store)
        (save : string -> Store -> Disk -> option error * Disk)
        (path_Join : string -> string -> string)
        (dataDir grpcServer : string) (grpcPort : Z) (disk d : Disk)
        (w : client.WalletBackend G)
        (Hnew : fst (client.NewWalletBackend G NewGRPCClient Connect Disk
                       LoadAccounts path_Join dataDir grpcServer grpcPort disk)
                = Ok w) :
  client.StoreAccounts G Disk save w d
  = save (path_Join dataDir client.accountsFileName)
         (match LoadAccounts (path_Join dataDir client.accountsFileName) disk with
          | Ok s => s
          | Err _ => empty_Store
          end) d
  /\ client.CurrentAccount G w = None.
Proof.
  unfold client.NewWalletBackend in Hnew.
  destruct (LoadAccounts (path_Join dataDir client.accountsFileName) disk)
    as [s|e];
    destruct (Connect (NewGRPCClient grpcServer grpcPort)) as [[e'|] g];
    cbn in Hnew; try discriminate; injection Hnew as <-;
    split; reflexivity.
Qed.

(** ** [sign] and [textsign] *)

Lemma byte_cases (b : Z) :
  is_byte b -> In b (map Z.of_nat (seq 0 256)).
Proof.
  intros Hb. unfold is_byte in Hb.
  rewrite <- (Z2Nat.id b) by lia. apply in_map. apply in_seq. lia.
Qed.

Lemma Decode_byte (b : Z) :
  is_byte b ->
  hex.fromHexChar (hex.hextable (Z.shiftr b 4)) = Some (Z.shiftr b 4)
  /\ hex.fromHexChar (hex.hextable (Z.land b 15)) = Some (Z.land b 15)
  /\ Z.lor (Z.shiftl (Z.shiftr b 4) 4) (Z.land b 15) = b.
Proof.
  intros Hb.
  assert (Hall : forallb
            (fun b =>
               match hex.fromHexChar (hex.hextable (Z.shiftr b 4)),
                     hex.fromHexChar (hex.hextable (Z.land b 15)) with
               | Some a, Some c =>
                   (a =? Z.shiftr b 4) && (c =? Z.land b 15)
                   && (Z.lor (Z.shiftl (Z.shiftr b 4) 4) (Z.land b 15) =? b)
               | _, _ => false
               end)
            (map Z.of_nat (seq 0 256)) = true) by (vm_compute; reflexivity).
  rewrite forallb_forall in Hall. specialize (Hall b (byte_cases b Hb)).
  destruct (hex.fromHexChar (hex.hextable (Z.shiftr b 4))) as [a|];
    [|discriminate].
  destruct (hex.fromHexChar (hex.hextable (Z.land b 15))) as [c|];
    [|discriminate].
  apply andb_prop in Hall. destruct Hall as [Hall H3].
  apply andb_prop in Hall. destruct Hall as [H1 H2].
  apply Z.eqb_eq in H1, H2, H3. subst. repeat split; assumption.
Qed.

(** Decoding what [EncodeToString] wrote gives the bytes back. *)
Lemma Decode_EncodeToString (bs : bytes) :
  Forall is_byte bs ->
  hex.DecodeString (hex.EncodeToString bs) = (bs, None).
Proof.
  unfold hex.DecodeString.
  induction 1 as [|b bs Hb _ IH]; [reflexivity|].
  destruct (Decode_byte b Hb) as [H1 [H2 H3]].
  cbn [hex.EncodeToString hex.Decode]. rewrite H1, H2, IH, H3. reflexivity.
Qed.

Lemma bytes_of_string_bytes (s : string) : Forall is_byte (bytes_of_string s).
Proof.
  unfold bytes_of_string. apply Forall_map, Forall_forall. intros c _.
  unfold is_byte. pose proof (N_ascii_bounded c). lia.
Qed.

Lemma Decode_odd (s : string) :
  Nat.odd (String.length s) = true -> snd (hex.Decode s) <> None.
Proof.
  revert s.
  fix IH 1. intros [|p [|q rest]]; cbn [String.length].
  - discriminate.
  - intros _. cbn [hex.Decode].
    destruct (hex.fromHexChar p); discriminate.
  - intros Hodd. cbn [hex.Decode].
    destruct (hex.fromHexChar p); [|discriminate].
    destruct (hex.fromHexChar q); [|discriminate].
    specialize (IH rest Hodd).
    destruct (hex.Decode rest) as [bs e]. exact IH.
Qed.

Section SigningFacts.

Context {C : Type} {client_impl : repl.Client C}.
Variable T : Type.
Variable read_inputNotBlank : string -> T -> string * T.
Variable read_multipleChoice : list string -> T -> Z * T.
Variable createAccountMsg : string.
Variable Address_String : LocalAccount -> string.
Variable msgSignMsg : string.
Variable msgTextSignMsg : string.
Variable Sign2 : PrivateKey -> bytes -> bytes.

Local Abbreviation getCurrent :=
  (repl.getCurrent T read_inputNotBlank read_multipleChoice
                   createAccountMsg Address_String).
Local Abbreviation sign :=
  (signing.sign T read_inputNotBlank read_multipleChoice createAccountMsg
                Address_String msgSignMsg Sign2).
Local Abbreviation textsign :=
  (signing.textsign T read_inputNotBlank read_multipleChoice createAccountMsg
                    Address_String msgTextSignMsg Sign2).

(** The world after the operator answered the prompt [msg], with the
    events [evs] that followed. *)
Local Abbreviation prompted w msg evs :=
  ({| repl.this := repl.this w;
      repl.terminal := snd (read_inputNotBlank msg (repl.terminal w));
      repl.trace := repl.trace w ++ repl.Prompt_inputNotBlank msg :: evs |}).

Lemma sign_run (w w1 : @repl.world C T) (acc : LocalAccount) :
  getCurrent w = (repl.Returned (Ok acc), w1) ->
  sign w
  = (repl.Returned tt,
     prompted w1 msgSignMsg
       [match hex.DecodeString
                (fst (read_inputNotBlank msgSignMsg (repl.terminal w1))) with
        | (_, Some err) =>
            repl.LogError "failed to decode msg hex string: %v" err
        | (msg, None) =>
            repl.Println
              [repl.printPrefix;
               ("signature (in hex): "
                ++ hex.EncodeToString (Sign2 (PrivKey acc) msg))%string]
        end]).
Proof.
  intros Hcur. unfold signing.sign.
  unfold repl.bind at 1. rewrite Hcur.
  unfold repl.bind, repl.inputNotBlank, repl.emit.
  destruct (read_inputNotBlank msgSignMsg (repl.terminal w1)) as [s t1].
  cbn [fst snd repl.this repl.terminal repl.trace].
  destruct (hex.DecodeString s) as [msg [err|]];
    cbn [repl.this repl.terminal repl.trace];
    rewrite <- app_assoc; reflexivity.
Qed.

Lemma textsign_run (w w1 : @repl.world C T) (acc : LocalAccount) :
  getCurrent w = (repl.Returned (Ok acc), w1) ->
  textsign w
  = (repl.Returned tt,
     prompted w1 msgTextSignMsg
       [repl.Println
          [repl.printPrefix;
           ("signature (in hex): "
            ++ hex.EncodeToString
                 (Sign2 (PrivKey acc)
                    (bytes_of_string
                       (fst (read_inputNotBlank msgTextSignMsg
                                                (repl.terminal w1))))))%string]]).
Proof.
  intros Hcur. unfold signing.textsign.
  unfold repl.bind at 1. rewrite Hcur.
  unfold repl.bind, repl.inputNotBlank, repl.emit.
  destruct (read_inputNotBlank msgTextSignMsg (repl.terminal w1)) as [s t1].
  cbn [fst snd repl.this repl.terminal repl.trace].
  rewrite <- app_assoc. reflexivity.
Qed.

(** X19.  Signing a text with [textsign] and signing its bytes, typed in
    hexadecimal, with [sign] print the same signature line. *)
Theorem sign_of_hex_is_textsign
        (w w1 : @repl.world C T) (acc : LocalAccount) (m : string)
        (Hcur : getCurrent w = (repl.Returned (Ok acc), w1))
        (Htext : fst (read_inputNotBlank msgTextSignMsg (repl.terminal w1)) = m)
        (Hhex : fst (read_inputNotBlank msgSignMsg (repl.terminal w1))
                = hex.EncodeToString (bytes_of_string m)) :
  last (repl.trace (snd (sign w))) (repl.Println [])
  = repl.Println
      [repl.printPrefix;
       ("signature (in hex): "
        ++ hex.EncodeToString (Sign2 (PrivKey acc) (bytes_of_string m)))%string]
  /\ last (repl.trace (snd (textsign w))) (repl.Println [])
     = last (repl.trace (snd (sign w))) (repl.Println []).
Proof.
  rewrite (sign_run w w1 acc Hcur), (textsign_run w w1 acc Hcur).
  cbn [snd repl.trace]. rewrite Hhex, Htext.
  rewrite (Decode_EncodeToString _ (bytes_of_string_bytes m)).
  change (repl.trace w1 ++ ?a :: ?l) with (repl.trace w1 ++ [a] ++ l).
  rewrite !app_assoc, !last_last. split; reflexivity.
Qed.

(** X20.  What [sign] cannot decode it does not sign: on a line that is not
    hexadecimal, and on every line of odd length, it logs the decoding
    error and prints nothing. *)
Theorem sign_rejects_undecodable_input
        (w w1 : @repl.world C T) (acc : LocalAccount) (err : error)
        (Hcur : getCurrent w = (repl.Returned (Ok acc), w1))
        (Hbad : snd (hex.DecodeString
                       (fst (read_inputNotBlank msgSignMsg (repl.terminal w1))))
                = Some err) :
  sign w
  = (repl.Returned tt,
     prompted w1 msgSignMsg
       [repl.LogError "failed to decode msg hex string: %v" err])
  /\ forall s : string,
      Nat.odd (String.length s) = true -> snd (hex.DecodeString s) <> None.
Proof.
  split; [|exact Decode_odd].
  rewrite (sign_run w w1 acc Hcur).
  destruct (hex.DecodeString _) as [msg e]. cbn [snd] in Hbad. subst e.
  reflexivity.
Qed.

(** Without a current account neither [sign] nor [textsign] asks for a
    message: the error of [getCurrent] is logged and nothing is
    printed. *)
Lemma signing_needs_a_current_account
        (w w1 : @repl.world C T) (e : error)
        (Hcur : getCurrent w = (repl.Returned (Err e), w1)) :
  sign w = repl.emit T (repl.LogError "failed to get account" e) w1
  /\ textsign w = repl.emit T (repl.LogError "failed to get account" e) w1.
Proof.
  unfold signing.sign, signing.textsign, repl.bind. rewrite Hcur.
  split; reflexivity.
Qed.

End SigningFacts.

(** ** [commandLineParams] *)

Section ReplaceFacts.

Local Open Scope string_scope.

Lemma prefix_append (p rest : string) : String.prefix p (p ++ rest) = true.
Proof.
  induction p as [|a p IH]; cbn.
  - destruct rest; reflexivity.
  - destruct (ascii_dec a a); [exact IH|congruence].
Qed.

Lemma drop_occurrences_skip (a old rest : string) :
  params.drop_occurrences (String.length a) old (a ++ rest)
  = params.drop_occurrences 0 old rest.
Proof.
  induction a as [|x a IH]; cbn [String.length append].
  - destruct rest; reflexivity.
  - cbn [params.drop_occurrences]. exact IH.
Qed.

Lemma drop_occurrences_front (old rest : string) :
  old <> EmptyString ->
  params.drop_occurrences 0 old (old ++ rest)
  = params.drop_occurrences 0 old rest.
Proof.
  intros Hne. destruct old as [|ch a]; [congruence|].
  change (String ch a ++ rest) with (String ch (a ++ rest)).
  cbn [params.drop_occurrences].
  change (String ch (a ++ rest)) with (String ch a ++ rest).
  rewrite prefix_append.
  cbn [String.length Nat.sub]. rewrite Nat.sub_0_r.
  apply drop_occurrences_skip.
Qed.

Lemma drop_occurrences_absent (old s : string) :
  ~ occurs old s -> params.drop_occurrences 0 old s = s.
Proof.
  induction s as [|ch s IH]; intros Habs; [reflexivity|].
  cbn [params.drop_occurrences].
  destruct (String.prefix old (String ch s)) eqn:Ep.
  - exfalso. apply Habs. apply prefix_iff_append in Ep.
    destruct Ep as [post E]. exists EmptyString, post. exact E.
  - f_equal. apply IH. intros [pre [post E]]. apply Habs.
    exists (String ch pre), post. cbn. now rewrite E.
Qed.

End ReplaceFacts.

Section ParamsFacts.

Context {C : Type}.
Variable T : Type.
Variable TrimSpace : string -> string.

(** X21.  [commandLineParams] drops the command text wherever it stands: at the
    front of the line and at every later occurrence in what follows; when
    it does not occur again, the rest of the line is returned, trimmed.
    An index outside the command table panics. *)
Theorem commandLineParams_drops_every_occurrence
        (w : @repl.world C T) (idx : Z) (c : repl.command) (rest : string)
        (Hidx : 0 <= idx)
        (Hc : nth_error (repl.commands (repl.this w)) (Z.to_nat idx) = Some c)
        (Hne : repl.text c <> EmptyString) :
  params.commandLineParams T TrimSpace idx (repl.text c ++ rest) w
  = (repl.Returned
       (TrimSpace (params.Replace_with_empty rest (repl.text c))), w)
  /\ (~ occurs (repl.text c) rest ->
      params.commandLineParams T TrimSpace idx (repl.text c ++ rest) w
      = (repl.Returned (TrimSpace rest), w))
  /\ forall (j : Z) (input : string),
      j < 0 \/ Z.of_nat (List.length (repl.commands (repl.this w))) <= j ->
      fst (params.commandLineParams T TrimSpace j input w)
      = repl.Panicked "runtime error: index out of range".
Proof.
  assert (Hrun : params.commandLineParams T TrimSpace idx
                   (repl.text c ++ rest) w
                 = (repl.Returned
                      (TrimSpace (params.Replace_with_empty rest (repl.text c))),
                    w)).
  { unfold params.commandLineParams.
    destruct (idx <? 0)%Z eqn:E; [apply Z.ltb_lt in E; lia|].
    rewrite Hc. cbv zeta. unfold params.Replace_with_empty.
    apply String.eqb_neq in Hne. rewrite Hne.
    rewrite drop_occurrences_front by (apply String.eqb_neq; exact Hne).
    reflexivity. }
  split; [exact Hrun|]. split.
  - intros Habs. rewrite Hrun. unfold params.Replace_with_empty.
    apply String.eqb_neq in Hne. rewrite Hne.
    rewrite (drop_occurrences_absent _ _ Habs). reflexivity.
  - intros j input Hj. unfold params.commandLineParams.
    destruct (j <? 0)%Z eqn:E; [reflexivity|].
    apply Z.ltb_ge in E.
    assert (Hn : nth_error (repl.commands (repl.this w)) (Z.to_nat j) = None)
      by (apply nth_error_None; lia).
    rewrite Hn. reflexivity.
Qed.

End ParamsFacts.

(** ** The statements of this part, on concrete inputs *)

Lemma coinAmount_form_witness :
  0 <= 1500000000000
  /\ exists frac : string,
      account_commands.coinAmount 1500000000000
      = ("1" ++ "." ++ frac ++ " SMH")%string
      /\ String.length frac = 12%nat.
Proof.
  split; [lia|].
  destruct (proj2 (coinAmount_form 1500000000000 ltac:(lia)) ltac:(lia))
    as [frac [E [L _]]].
  exists frac. split; [exact E|exact L].
Defined.

Lemma coinAmount_distinct_witness :
  (0 <= 9999999999 /\ 0 <= 10000000000 /\ 9999999999 <> 10000000000)
  /\ account_commands.coinAmount 9999999999
     <> account_commands.coinAmount 10000000000.
Proof.
  split; [repeat split; lia|].
  apply coinAmount_distinct; lia.
Defined.

Lemma chooseAccount_forwards_the_pick_witness :
  (@repl.ListAccounts canned canned_Client canned_ok = (Ok ["alice"%string; "bob"%string], canned_ok)
   /\ fst (script_multipleChoice ["alice"%string; "bob"%string] ([], [7])) = 7)
  /\ exists evs : list repl.event,
      repl.trace
        (snd (@repl.chooseAccount canned canned_Client script
                script_inputNotBlank script_multipleChoice "alias: "
                example_Address_String (canned_world canned_ok ([], [7]) true)))
      = [repl.Call repl.call_ListAccounts;
         repl.Println [repl.printPrefix; "Choose an account to load:"%string];
         repl.Prompt_multipleChoice ["alice"%string; "bob"%string];
         repl.Call (repl.call_SetCurrentAccount 6)] ++ evs.
Proof.
  split; [split; reflexivity|].
  destruct (@chooseAccount_forwards_the_pick canned canned_Client script
              script_inputNotBlank script_multipleChoice "alias: "
              example_Address_String (canned_world canned_ok ([], [7]) true)
              ["alice"%string; "bob"%string] canned_ok 7
              eq_refl ltac:(discriminate) eq_refl ltac:(discriminate))
    as [evs [Htr _]].
  exists evs. exact Htr.
Defined.

Lemma chooseAccount_declined_witness :
  fst (script_multipleChoice ["alice"%string; "bob"%string] ([], [0])) = 0
  /\ exists evs : list repl.event,
      @repl.chooseAccount canned canned_Client script
        script_inputNotBlank script_multipleChoice "alias: "
        example_Address_String (canned_world canned_ok ([], [0]) true)
      = (repl.Returned tt,
         advanced (canned_world canned_ok ([], [0]) true) canned_ok ([], []) evs)
      /\ calls_of evs = [repl.call_ListAccounts].
Proof.
  split; [reflexivity|].
  destruct (@chooseAccount_declined canned canned_Client script
              script_inputNotBlank script_multipleChoice "alias: "
              example_Address_String (canned_world canned_ok ([], [0]) true)
              ["alice"%string; "bob"%string] canned_ok
              eq_refl ltac:(discriminate) eq_refl)
    as [evs [Hrun [Hcalls _]]].
  exists evs. split; [exact Hrun|exact Hcalls].
Defined.

Lemma chooseAccount_set_failure_witness :
  @repl.SetCurrentAccount canned canned_Client 0 canned_refusing = (Some refused, canned_refusing)
  /\ exists evs : list repl.event,
      @repl.chooseAccount canned canned_Client script
        script_inputNotBlank script_multipleChoice "alias: "
        example_Address_String (canned_world canned_refusing ([], [1]) true)
      = (repl.Returned tt,
         advanced (canned_world canned_refusing ([], [1]) true)
                  canned_refusing ([], []) evs)
      /\ ~ In repl.call_CurrentAccount (calls_of evs).
Proof.
  split; [reflexivity|].
  destruct (@chooseAccount_set_failure canned canned_Client script
              script_inputNotBlank script_multipleChoice "alias: "
              example_Address_String
              (canned_world canned_refusing ([], [1]) true)
              ["alice"%string; "bob"%string] canned_refusing canned_refusing
              refused eq_refl ltac:(discriminate) ltac:(discriminate) eq_refl)
    as [evs [Hrun [Hno _]]].
  exists evs. split; [exact Hrun|exact Hno].
Defined.

Lemma chooseAccount_panics_on_inconsistent_client_witness :
  (@repl.SetCurrentAccount canned canned_Client 0 canned_unselected = (None, canned_unselected)
   /\ @repl.CurrentAccount canned canned_Client canned_unselected = (Err refused, canned_unselected))
  /\ fst (@repl.chooseAccount canned canned_Client script
            script_inputNotBlank script_multipleChoice "alias: "
            example_Address_String
            (canned_world canned_unselected ([], [1]) true))
     = repl.Panicked "wtf".
Proof.
  split; [split; reflexivity|].
  exact (proj1 (@chooseAccount_panics_on_inconsistent_client canned
                  canned_Client script script_inputNotBlank
                  script_multipleChoice "alias: " example_Address_String
                  (canned_world canned_unselected ([], [1]) true)
                  ["alice"%string; "bob"%string]
                  canned_unselected canned_unselected canned_unselected
                  refused eq_refl ltac:(discriminate) ltac:(discriminate)
                  eq_refl eq_refl)).
Defined.

Lemma getCurrent_asks_once_witness :
  @repl.CurrentAccount canned canned_Client canned_unselected = (Err refused, canned_unselected)
  /\ fst (@repl.getCurrent canned canned_Client script
            script_inputNotBlank script_multipleChoice "alias: "
            example_Address_String
            (canned_world canned_unselected ([], [0]) true))
     = repl.Returned (Err refused).
Proof.
  split; [reflexivity|].
  destruct (@getCurrent_asks_once canned canned_Client script
              script_inputNotBlank script_multipleChoice "alias: "
              example_Address_String
              (canned_world canned_unselected ([], [0]) true)
              refused ["alice"%string; "bob"%string]
              canned_unselected canned_unselected
              eq_refl eq_refl ltac:(discriminate) eq_refl)
    as [evs [Hrun _]].
  rewrite Hrun. reflexivity.
Defined.

Lemma executor_reaches_every_command_witness :
  (table_consistent (repl.this (canned_world canned_ok ([], []) false))
   /\ In (repl.cmd "wallet-open" "Open a wallet" repl.r_openWallet)
         (repl.commands (repl.this (canned_world canned_ok ([], []) false))))
  /\ @repl.executor canned canned_Client script script_inputNotBlank
       script_multipleChoice "alias: " example_Address_String no_other_method
       "wallet-open now" (canned_world canned_ok ([], []) false)
     = repl.bind script
         (repl.update script (repl.set_input "wallet-open now"))
         (fun _ => @repl.openWallet canned canned_Client script)
         (canned_world canned_ok ([], []) false).
Proof.
  split; [split; [reflexivity|left; reflexivity]|].
  exact (proj2 (@executor_reaches_every_command canned canned_Client script
                  script_inputNotBlank script_multipleChoice "alias: "
                  example_Address_String no_other_method
                  (canned_world canned_ok ([], []) false)
                  (repl.cmd "wallet-open" "Open a wallet" repl.r_openWallet)
                  "now" eq_refl (or_introl eq_refl))).
Defined.

Lemma executor_rejects_commands_of_the_other_state_witness :
  In (repl.cmd "wallet-info" "Display wallet info" repl.r_walletInfo)
     (repl.accountCommands
        (negb (repl.clientOpen
                 (repl.this (canned_world canned_ok ([], []) false)))))
  /\ @repl.executor canned canned_Client script script_inputNotBlank
       script_multipleChoice "alias: " example_Address_String no_other_method
       "wallet-info please" (canned_world canned_ok ([], []) false)
     = repl.emit script
         (repl.Println [repl.printPrefix; "invalid command."%string])
         (canned_world canned_ok ([], []) false).
Proof.
  split; [left; reflexivity|].
  exact (@executor_rejects_commands_of_the_other_state canned canned_Client
           script script_inputNotBlank script_multipleChoice "alias: "
           example_Address_String no_other_method
           (canned_world canned_ok ([], []) false)
           (repl.cmd "wallet-info" "Display wallet info" repl.r_walletInfo)
           " please" eq_refl (or_introl eq_refl)).
Defined.

Lemma executor_keeps_the_table_consistent_witness :
  table_consistent (repl.this (canned_world canned_ok ([], []) false))
  /\ table_consistent
       (repl.this
          (snd (@repl.executor canned canned_Client script
                  script_inputNotBlank script_multipleChoice "alias: "
                  example_Address_String no_other_method
                  "wallet-open" (canned_world canned_ok ([], []) false)))).
Proof.
  split; [reflexivity|].
  exact (@executor_keeps_the_table_consistent canned canned_Client script
           script_inputNotBlank script_multipleChoice "alias: "
           example_Address_String no_other_method
           "wallet-open" (canned_world canned_ok ([], []) false)
           (fun f w0 H => H) eq_refl).
Defined.

Lemma closeWallet_disables_account_commands_witness :
  In (repl.cmd "wallet-info" "Display wallet info" repl.r_walletInfo)
     (repl.accountCommands true)
  /\ snd (repl.bind script (@repl.closeWallet canned canned_Client script)
            (fun _ =>
               @repl.executor canned canned_Client script
                 script_inputNotBlank script_multipleChoice "alias: "
                 example_Address_String no_other_method "wallet-info")
            (canned_world canned_ok ([], []) true))
     = snd (repl.bind script (@repl.closeWallet canned canned_Client script)
              (fun _ =>
                 repl.emit script
                   (repl.Println [repl.printPrefix; "invalid command."%string]))
              (canned_world canned_ok ([], []) true)).
Proof.
  split; [left; reflexivity|].
  exact (f_equal snd
           (@closeWallet_disables_account_commands canned canned_Client script
              script_inputNotBlank script_multipleChoice "alias: "
              example_Address_String no_other_method
              (canned_world canned_ok ([], []) true)
              (repl.cmd "wallet-info" "Display wallet info" repl.r_walletInfo)
              EmptyString (or_introl eq_refl))).
Defined.

Lemma openWallet_enables_account_commands_witness :
  fst (@repl.OpenWallet canned canned_Client canned_ok) = true
  /\ calls_of
       (repl.trace
          (snd (@repl.openWallet canned canned_Client script
                  (canned_world canned_ok ([], []) false))))
     = [repl.call_OpenWallet; repl.call_WalletInfo].
Proof.
  split; [reflexivity|].
  exact (proj1 (@openWallet_enables_account_commands canned canned_Client
                  script script_inputNotBlank script_multipleChoice "alias: "
                  example_Address_String no_other_method
                  (canned_world canned_ok ([], []) false)
                  (repl.cmd "wallet-info" "Display wallet info"
                            repl.r_walletInfo)
                  EmptyString eq_refl (or_introl eq_refl))).
Defined.

Lemma openWallet_failure_witness :
  fst (@repl.OpenWallet canned canned_Client canned_unselected) = false
  /\ exists w' : @repl.world canned script,
      @repl.openWallet canned canned_Client script
        (canned_world canned_unselected ([], []) false)
      = (repl.Returned tt, w')
      /\ repl.clientOpen (repl.this w') = false.
Proof.
  split; [reflexivity|].
  destruct (@openWallet_failure canned canned_Client script
              (canned_world canned_unselected ([], []) false) eq_refl)
    as [w' [evs [Hrun [_ [_ [_ [_ Hopen]]]]]]].
  exists w'. split; [exact Hrun|exact Hopen].
Defined.

Lemma encoding_is_injective_witness :
  (well_formed_tx example_tx /\ well_formed_tx example_tx2)
  /\ (encodeUnsigned example_tx = encodeUnsigned example_tx2 ->
      example_tx = example_tx2).
Proof.
  assert (H1 : well_formed_tx example_tx)
    by (unfold well_formed_tx, is_uint64, uint64_max; cbn; repeat split; lia).
  assert (H2 : well_formed_tx example_tx2)
    by (unfold well_formed_tx, is_uint64, uint64_max; cbn; repeat split; lia).
  split; [split; assumption|].
  exact (proj1 (encoding_is_injective example_tx example_tx2 H1 H2)).
Defined.

Lemma Transfer_submits_116_bytes_witness :
  List.length (Recipient example_tx) = AddressLength
  /\ exists b : bytes,
      fst (client.Transfer unit (fun g b => (Ok (TxState b 1), g))
             xdr.Marshal example_Sign2
             {| client.grpc := tt; client.store := empty_Store;
                client.accountsFilePath := "data/accounts.json";
                client.currentAccount := None |}
             example_recipient 0 500000000000 1 100 [])
      = Ok (TxState b 1)
      /\ List.length b = 116%nat.
Proof.
  split; [reflexivity|].
  destruct (Transfer_submits_116_bytes unit (fun g b => (Ok (TxState b 1), g))
              example_Sign2
              {| client.grpc := tt; client.store := empty_Store;
                 client.accountsFilePath := "data/accounts.json";
                 client.currentAccount := None |}
              example_tx [] eq_refl)
    as [b [Hrun [Hlen _]]].
  exists b. split; [exact Hrun|exact Hlen].
Defined.

Lemma StoreAccounts_after_NewWalletBackend_witness :
  fst (client.NewWalletBackend unit (fun _ _ => tt) connect_ok
         store_file.disk store_file.LoadAccounts join_path
         "data" "localhost" 9092 corrupt_disk)
  = Ok {| client.grpc := tt; client.store := empty_Store;
          client.accountsFilePath := "data/accounts.json";
          client.currentAccount := None |}
  /\ client.StoreAccounts unit store_file.disk example_save
       {| client.grpc := tt; client.store := empty_Store;
          client.accountsFilePath := "data/accounts.json";
          client.currentAccount := None |} corrupt_disk
     = (None,
        ("data/accounts.json"%string, store_file.Accounts empty_Store)
          :: corrupt_disk).
Proof.
  split; [reflexivity|].
  exact (proj1 (StoreAccounts_after_NewWalletBackend unit (fun _ _ => tt)
                  connect_ok store_file.disk store_file.LoadAccounts
                  example_save join_path "data" "localhost" 9092
                  corrupt_disk corrupt_disk
                  {| client.grpc := tt; client.store := empty_Store;
                     client.accountsFilePath := "data/accounts.json";
                     client.currentAccount := None |} eq_refl)).
Defined.

Lemma sign_of_hex_is_textsign_witness :
  (fst (prompt_reader "text" ([], [])) = "hi"%string
   /\ fst (prompt_reader "hex" ([], []))
      = hex.EncodeToString (bytes_of_string "hi"))
  /\ last (repl.trace
             (snd (@signing.sign canned canned_Client script prompt_reader
                     script_multipleChoice "alias: " example_Address_String
                     "hex" example_Sign2
                     (canned_world canned_ok ([], []) true))))
          (repl.Println [])
     = repl.Println
         [repl.printPrefix;
          ("signature (in hex): "
           ++ hex.EncodeToString
                (example_Sign2 (PrivKey alice) (bytes_of_string "hi")))%string].
Proof.
  split; [split; reflexivity|].
  exact (proj1 (@sign_of_hex_is_textsign canned canned_Client script
                  prompt_reader script_multipleChoice "alias: "
                  example_Address_String "hex" "text" example_Sign2
                  (canned_world canned_ok ([], []) true)
                  (after_call repl.call_CurrentAccount canned_ok
                              (canned_world canned_ok ([], []) true))
                  alice "hi" eq_refl eq_refl eq_refl)).
Defined.

Lemma sign_rejects_undecodable_input_witness :
  snd (hex.DecodeString (fst (bad_hex_reader "hex" ([], []))))
  = Some hex.ErrLength
  /\ calls_of
       (repl.trace
          (snd (@signing.sign canned canned_Client script bad_hex_reader
                  script_multipleChoice "alias: " example_Address_String
                  "hex" example_Sign2
                  (canned_world canned_ok ([], []) true))))
     = [repl.call_CurrentAccount]
  /\ last (repl.trace
             (snd (@signing.sign canned canned_Client script bad_hex_reader
                     script_multipleChoice "alias: " example_Address_String
                     "hex" example_Sign2
                     (canned_world canned_ok ([], []) true))))
          (repl.Println [])
     = repl.LogError "failed to decode msg hex string: %v" hex.ErrLength.
Proof.
  split; [reflexivity|].
  rewrite (proj1 (@sign_rejects_undecodable_input canned canned_Client script
                    bad_hex_reader script_multipleChoice "alias: "
                    example_Address_String "hex" example_Sign2
                    (canned_world canned_ok ([], []) true)
                    (after_call repl.call_CurrentAccount canned_ok
                                (canned_world canned_ok ([], []) true))
                    alice hex.ErrLength eq_refl eq_refl)).
  split; reflexivity.
Defined.

Lemma commandLineParams_drops_every_occurrence_witness :
  (0 <= 0
   /\ nth_error (repl.commands
                   (repl.this (canned_world canned_ok ([], []) false))) 0
      = Some (repl.cmd "wallet-open" "Open a wallet" repl.r_openWallet))
  /\ @params.commandLineParams canned script example_TrimSpace 0
       "wallet-open my wallet-open file"
       (canned_world canned_ok ([], []) false)
     = (repl.Returned " my  file"%string,
        canned_world canned_ok ([], []) false).
Proof.
  split; [split; [lia|reflexivity]|].
  exact (proj1 (@commandLineParams_drops_every_occurrence canned script
                  example_TrimSpace (canned_world canned_ok ([], []) false)
                  0 (repl.cmd "wallet-open" "Open a wallet" repl.r_openWallet)
                  " my wallet-open file" ltac:(lia) eq_refl
                  ltac:(discriminate))).
Defined.
